(** * Job-Hunter agent: relevance scoring, selection and job discovery

    A shallow embedding of [nodes/relevance_scoring.py], of
    [nodes/job_discovery.py], of the parts of [config/settings.py] and
    [config/state.py] they read, and of the entry of [agent.py].

    Modelling conventions.
    - Python [str] is [string], the UTF-8 bytes of the text: [len] and
      slices count characters, not bytes.  [str.lower] maps the ASCII
      letters [A-Z] to [a-z] and leaves every other byte alone, so the
      statements on case speak about ASCII text.
    - Python [float] scores are the exact rationals [Q] they stand for;
      [round(x, n)] rounds the decimal at position [n] half-to-even.  Every
      number the scorer adds up is a decimal with at most three places.  A
      sum that is exactly half-way between two tenths in [Q] is a hair off
      half-way in binary floating point, so there [round] may return the
      other tenth; statements on a rounded score that must hold on such a
      sum give the interval, not the tenth.
    - A value the language model's reply puts into a dictionary is kept as
      what the validation of [JobListing] makes of it: the validated value, or a
      refusal.
    - A [try ... except Exception] block is a computation in [option]; [None]
      stands for "some call in the block raised".
    - [list.sort(key=..., reverse=True)] is Python's stable sort; a stable
      sort is determined by its input, so it is written here as a stable
      insertion sort. *)

From Stdlib Require Import ZArith QArith Qround Qminmax Lia Lqa Bool List Ascii String.
From Stdlib Require Import Permutation Sorted DecimalString DecimalNat.
From stdpp Require Import gmap strings.
Import ListNotations.

#[local] Set Warnings "-clear-no-such-hyp".
Local Open Scope string_scope.

(** ** Python string primitives *)

(** [c.lower()] on one ASCII character. *)
Definition lower_ascii (c : ascii) : ascii :=
  let n := nat_of_ascii c in
  if (65 <=? n)%nat && (n <=? 90)%nat then ascii_of_nat (n + 32) else c.

(** [s.lower()] *)
Fixpoint lower (s : string) : string :=
  match s with
  | EmptyString => EmptyString
  | String c s' => String (lower_ascii c) (lower s')
  end.

(** [kw in s] for strings: [kw] occurs in [s] as a contiguous substring. *)
Fixpoint contains (kw s : string) : bool :=
  String.prefix kw s ||
  match s with
  | EmptyString => false
  | String _ s' => contains kw s'
  end.

(** A byte that continues a UTF-8 character. *)
Definition continuation (c : ascii) : bool :=
  let n := nat_of_ascii c in (128 <=? n)%nat && (n <? 192)%nat.

(** [len(s)]: the number of characters. *)
Fixpoint len (s : string) : nat :=
  match s with
  | EmptyString => 0%nat
  | String c s' => if continuation c then len s' else S (len s')
  end.

(** [s[:n]]: the first [n] characters. *)
Fixpoint slice_to (n : nat) (s : string) : string :=
  match s with
  | EmptyString => EmptyString
  | String c s' =>
      if continuation c then String c (slice_to n s')
      else match n with
           | O => EmptyString
           | S n' => String c (slice_to n' s')
           end
  end.

(** [x in xs] for a list of strings. *)
Definition str_in (x : string) (xs : list string) : bool :=
  existsb (String.eqb x) xs.

(** [any(kw in text for kw in kws)] *)
Definition any_in (kws : list string) (text : string) : bool :=
  existsb (fun kw => contains kw text) kws.

(** [sum(1 for x in xs if p(x))] *)
Definition count_if {A} (p : A -> bool) (xs : list A) : Z :=
  Z.of_nat (List.length (List.filter p xs)).

(** [s or d]: the empty string is falsy. *)
Definition str_or (s d : string) : string :=
  match s with EmptyString => d | _ => s end.

(** ** Python numeric primitives on exact rationals *)

(** Nearest integer, ties to the even neighbour. *)
Definition round_half_even (x : Q) : Z :=
  let q := Qfloor x in
  match (x - inject_Z q ?= 1 # 2)%Q with
  | Lt => q
  | Gt => (q + 1)%Z
  | Eq => if Z.even q then q else (q + 1)%Z
  end.

(** [round(x, ndigits)] on the decimal a float stands for.  Where [x] is
    exactly half-way between two neighbours the float is a hair off
    half-way, and Python may return the other neighbour. *)
Definition py_round (x : Q) (ndigits : nat) : Q :=
  let p := Z.to_pos (10 ^ Z.of_nat ndigits) in
  Qmake (round_half_even (x * inject_Z (Zpos p))) p.

(** ** config/settings.py *)

Definition CANDIDATE_SKILLS : list (string * list string) :=
  [ ("languages", ["Python"; "C++"; "Java"; "JavaScript"; "HTML/CSS"]);
    ("frameworks", ["Flask"; "Node.js"; "React"; "Streamlit"; "PyTorch"]);
    ("ml_frameworks", ["PyTorch"; "Hugging Face"; "scikit-learn"; "BERT"; "LLaMA"]);
    ("genai",
      ["LangChain"; "LangGraph"; "RAG"; "Text Embeddings";
       "Prompt Engineering"; "LoRA"; "QLoRA"; "LLMs";
       "Fine-tuning"; "FAISS"; "Chroma"; "Vector Databases";
       "OpenAI API"; "GPT-4o"; "GPT-4o-mini"]);
    ("agentic",
      ["LangGraph"; "LangChain"; "Multi-Agent Systems";
       "Autonomous Agents"; "Tool Calling"; "Multi-step Reasoning";
       "Agent Orchestration"; "State Machines"; "6-node Pipeline"]);
    ("mlops",
      ["DVC"; "Dagster"; "Astronomer"; "Apache Airflow";
       "AWS"; "S3"; "EC2"; "SageMaker"; "Docker";
       "MLflow"; "CI/CD Pipelines"; "Model Versioning"; "Data Pipelines"]);
    ("scraping",
      ["BeautifulSoup"; "Requests"; "Selenium";
       "LinkedIn Scraping"; "Indeed Scraping"; "Web Scraping"]);
    ("apis",
      ["Telegram Bot API"; "Google Sheets API"; "Notion API";
       "OpenAI API"; "REST APIs"]);
    ("databases", ["MySQL"; "PostgreSQL"; "MongoDB"]);
    ("data", ["Pandas"; "NumPy"; "Matplotlib"; "Seaborn"]);
    ("tools",
      ["Git"; "GitHub"; "Linux"; "LeetCode";
       "Groq Cloud"; "Gradio"; "Whisper"; "gTTS";
       "Sentence Transformers"]) ].

(** [[s for group in CANDIDATE_SKILLS.values() for s in group]] *)
Definition ALL_SKILLS : list string :=
  List.concat (List.map snd CANDIDATE_SKILLS).

Definition SEARCH_QUERIES : list string :=
  ["Machine Learning Intern"; "GenAI Intern"; "LLM Engineer fresher";
   "AI Agent Developer entry level"; "Generative AI intern";
   "Deep Learning intern"; "NLP engineer fresher"; "AI Research intern";
   "MLOps intern"; "LangChain developer fresher"].

Definition MIN_RELEVANCE_SCORE : Q := 60%Q.

Definition SCRAPE_SOURCES : gmap string bool :=
  list_to_map
    [("linkedin", true); ("indeed", true); ("internshala", true);
     ("wellfound", true); ("unstop", true); ("company_pages", true)].

Definition PREFERRED_COMPANY_KEYWORDS : list string :=
  ["AI"; "ML"; "GenAI"; "LLM"; "Generative"; "Agentic";
   "NLP"; "Computer Vision"; "Deep Learning"; "SaaS"; "startup"].

Definition BLACKLIST_KEYWORDS : list string :=
  ["senior"; "lead"; "principal"; "staff"; "director";
   "5+ years"; "7+ years"; "10+ years"; "3+ years";
   "2+ years mandatory"].

(** ** config/state.py *)

(** What the validation of [JobListing] makes of the value under a key of
    the dictionary: pydantic validates it as [v], or it refuses it ([null] or a
    value of another type where a list, a string or a boolean is declared). *)
Inductive Value (A : Type) : Type :=
| Typed (v : A)
| Untyped.

Arguments Typed {A} v.
Arguments Untyped {A}.

Definition typed {A : Type} (x : Value A) : option A :=
  match x with
  | Typed v => Some v
  | Untyped => None
  end.

(** A raw posting: the dictionary a scraper builds, one field per key.  The
    four keys [enrich_job_description] overwrites hold whatever the reply
    gave. *)
Module Raw.
Record Job := mkJob {
  job_id : string;
  title : string;
  company : string;
  location : string;
  work_mode : string;
  job_url : string;
  description : string;
  required_skills : Value (list string);
  preferred_skills : Value (list string);
  posted_date : string;
  experience_required : Value string;
  salary_range : option string;
  source : string;
  joining_date_flexible : Value bool
}.
End Raw.

Record JobListing := mkJobListing {
  job_id : string;
  title : string;
  company : string;
  location : string;
  work_mode : string;
  job_url : string;
  description : string;
  required_skills : list string;
  preferred_skills : list string;
  posted_date : option string;
  experience_required : string;
  salary_range : option string;
  source : string;
  joining_date_flexible : bool;
  relevance_score : Q
}.

(** [job.relevance_score = v] *)
Definition set_relevance_score (job : JobListing) (v : Q) : JobListing :=
  {| job_id := job_id job; title := title job; company := company job;
     location := location job; work_mode := work_mode job;
     job_url := job_url job; description := description job;
     required_skills := required_skills job;
     preferred_skills := preferred_skills job;
     posted_date := posted_date job;
     experience_required := experience_required job;
     salary_range := salary_range job; source := source job;
     joining_date_flexible := joining_date_flexible job;
     relevance_score := v |}.

(** ** nodes/relevance_scoring.py: scoring components *)

Definition _skill_overlap_score (job : JobListing) : Q :=
  match required_skills job with
  | [] => 20%Q
  | _ =>
      let candidate_lower := List.map lower ALL_SKILLS in
      let matched :=
        count_if (fun skill => str_in (lower skill) candidate_lower)
                 (required_skills job) in
      let overlap :=
        (inject_Z matched /
         inject_Z (Z.of_nat (List.length (required_skills job))))%Q in
      py_round (overlap * 40)%Q 2
  end.

Definition _experience_match_score (job : JobListing) : Q :=
  let exp_text := lower (str_or (experience_required job) "") in
  let description := lower (str_or (description job) "") in
  let combined := exp_text ++ " " ++ description in
  if any_in ["intern"; "fresher"; "0-1"; "entry"; "graduate"; "trainee"] combined
  then 25%Q
  else if any_in ["1-2 year"; "1+ year"; "junior"] combined then 18%Q
  else if any_in ["2+ year"; "2-3 year"] combined then 8%Q
  else if any_in ["3+"; "4+"; "5+"; "senior"; "lead"] combined then 0%Q
  else 15%Q.

Definition priority_tech : list string :=
  ["langchain"; "langgraph"; "llm"; "rag"; "pytorch"; "transformers";
   "huggingface"; "openai"; "generative"; "agent"; "vector"; "fine-tun";
   "mistral"; "llama"; "gpt"; "embedding"; "langsmith"].

Definition _tech_stack_score (job : JobListing) : Q :=
  let desc_lower := lower (str_or (description job) "") in
  let skill_lower :=
    List.map lower (required_skills job ++ preferred_skills job)%list in
  let all_text := desc_lower ++ String.concat " " skill_lower in
  let matches := count_if (fun tech => contains tech all_text) priority_tech in
  let score := Z.min (matches * 3) 25 in
  inject_Z score.

Definition _company_preference_score (job : JobListing) : Q :=
  let company_lower := lower (company job) in
  let desc_lower := lower (str_or (description job) "") in
  let combined := company_lower ++ " " ++ desc_lower in
  let matches :=
    count_if (fun kw => contains (lower kw) combined) PREFERRED_COMPANY_KEYWORDS in
  inject_Z (Z.min (matches * 2) 10).

Definition _eligibility_score (job : JobListing) : Q :=
  let score := 0%Q in
  let score :=
    if str_in (work_mode job) ["Remote"; "Hybrid"] then (score + 5)%Q else score in
  let score := if joining_date_flexible job then (score + 5)%Q else score in
  score.

Definition _is_disqualified (job : JobListing) : bool :=
  let combined :=
    lower (str_or (title job) "" ++ " " ++
           str_or (description job) "" ++ " " ++
           str_or (experience_required job) "") in
  existsb (fun kw => contains (lower kw) combined) BLACKLIST_KEYWORDS.

(** ** nodes/relevance_scoring.py: semantic scoring *)

(** The embedding collaborator returned by [utils.llm.get_embeddings]:
    [embed_query] yields a vector, or raises ([None]). *)
Record Embeddings := mkEmbeddings {
  embed_query : string -> option (list Q)
}.

(** The body of a [try] block runs in the [option] monad ([x ← c; k]): the
    first failing call aborts the block. *)

(** [try: body except Exception: return default] *)
Definition try_except {A} (body : option A) (default : A) : A :=
  match body with Some a => a | None => default end.

Section Scoring.

(** [sklearn.metrics.pairwise.cosine_similarity([a], [b])[0][0]], an external
    library call made inside the [try] block; [None] when it raises. *)
Variable cosine_similarity : list Q -> list Q -> option Q.

(** [candidate_profile], the first text handed to the collaborator. *)
Definition candidate_profile : string :=
  "Machine learning engineer with expertise in: " ++
  String.concat ", " (firstn 30 ALL_SKILLS).

(** [job_text = job.description[:500] if job.description else job.title] *)
Definition job_text (job : JobListing) : string :=
  match description job with
  | EmptyString => title job
  | _ => slice_to 500 (description job)
  end.

(** The body of the [try] block of [_semantic_similarity]. *)
Definition semantic_try (job : JobListing) (embeddings_model : Embeddings) : option Q :=
  emb_candidate ← embed_query embeddings_model candidate_profile;
  emb_job ← embed_query embeddings_model (job_text job);
  sim ← cosine_similarity emb_candidate emb_job;
  Some (py_round (sim * 10)%Q 2).

Definition _semantic_similarity (job : JobListing) (embeddings_model : Embeddings) : Q :=
  try_except (semantic_try job embeddings_model) 5%Q.

(** ** nodes/relevance_scoring.py: the node *)

(** [base_score = s1 + s2 + s3 + s4] *)
Definition base_score (job : JobListing) : Q :=
  (_skill_overlap_score job + _experience_match_score job +
   _tech_stack_score job + _company_preference_score job)%Q.

(** [semantic_bonus]: [0.0] unless an embedding model was loaded. *)
Definition semantic_bonus (embeddings_model : option Embeddings) (job : JobListing) : Q :=
  match embeddings_model with
  | Some m => _semantic_similarity job m
  | None => 0%Q
  end.

(** [final_score = min(base_score + semantic_bonus * 0.1, 100)] *)
Definition final_score (embeddings_model : option Embeddings) (job : JobListing) : Q :=
  Qmin (base_score job + semantic_bonus embeddings_model job * (1 # 10))%Q 100%Q.

(** One iteration of the loop body for a posting that is not disqualified:
    the posting with [relevance_score = round(final_score, 1)].  On a sum
    half-way between two tenths the recorded score is one of the two; the
    model records the even one. *)
Definition score_job (embeddings_model : option Embeddings) (job : JobListing) : JobListing :=
  set_relevance_score job (py_round (final_score embeddings_model job) 1).

(** The [for job in jobs] loop, threading [scored_jobs]. *)
Definition scoring_step (embeddings_model : option Embeddings)
    (scored_jobs : list JobListing) (job : JobListing) : list JobListing :=
  if _is_disqualified job then scored_jobs
  else (scored_jobs ++ [score_job embeddings_model job])%list.

Definition scoring_loop (embeddings_model : option Embeddings)
    (jobs : list JobListing) : list JobListing :=
  fold_left (scoring_step embeddings_model) jobs [].

End Scoring.

(** [scored_jobs.sort(key=lambda j: j.relevance_score, reverse=True)]:
    descending by score, postings of equal score in their original order. *)
Fixpoint insert_desc (j : JobListing) (sorted : list JobListing) : list JobListing :=
  match sorted with
  | [] => [j]
  | k :: rest =>
      if Qle_bool (relevance_score k) (relevance_score j)
      then j :: k :: rest
      else k :: insert_desc j rest
  end.

Definition sort_desc (jobs : list JobListing) : list JobListing :=
  fold_right insert_desc [] jobs.


(** The fields of [AgentState] the two nodes read and write; a key that may
    be missing from the dictionary is an [option]. *)
Record AgentState := mkAgentState {
  search_queries : option (list string);
  raw_jobs : list Raw.Job;
  filtered_jobs : list JobListing;
  scored_jobs : list JobListing;
  selected_jobs : list JobListing
}.

(** [relevance_scoring_node]; [embeddings_model] is what the guarded call to
    [get_embeddings] left in the variable: [None] when it raised.  Postings
    are scored in place, so [filtered_jobs] sees the new scores too. *)
Definition relevance_scoring_node
    (cosine_similarity : list Q -> list Q -> option Q)
    (embeddings_model : option Embeddings) (state : AgentState) : AgentState :=
  let jobs := filtered_jobs state in
  let scored := scoring_loop cosine_similarity embeddings_model jobs in
  let scored := sort_desc scored in
  let selected :=
    List.filter (fun j => Qle_bool MIN_RELEVANCE_SCORE (relevance_score j)) scored in
  {| search_queries := search_queries state;
     raw_jobs := raw_jobs state;
     filtered_jobs :=
       List.map (fun j => if _is_disqualified j then j
                          else score_job cosine_similarity embeddings_model j) jobs;
     scored_jobs := scored;
     selected_jobs := selected |}.

(** ** nodes/job_discovery.py *)

(** What a scraper has extracted from one result card that passed its
    filters: the texts that go into the dictionary it appends. *)
Record Card := mkCard {
  title_text : string;
  company_text : string;
  loc_text : string;
  card_work_mode : string;
  link : string;
  card_description : string;
  date_text : string;
  card_experience : string;
  card_salary : option string;
  card_source : string
}.

(** The keys [enrich_job_description] reads from the parsed reply; a key the
    reply lacks is [None], and a key it has holds any JSON value. *)
Record Parsed := mkParsed {
  parsed_required_skills : option (Value (list string));
  parsed_preferred_skills : option (Value (list string));
  parsed_experience_required : option (Value string);
  parsed_joining_date_flexible : option (Value bool)
}.

Section Discovery.

(** [hashlib.md5(text.encode()).hexdigest()] *)
Variable md5_hexdigest : string -> string.

(** The cards each site yields for a query: the network and the page parser
    are outside the program. *)
Variable internshala_cards : string -> list Card.
Variable indeed_cards : string -> list Card.
Variable wellfound_cards : string -> list Card.
Variable linkedin_cards : string -> list Card.

(** [call_llm] on the extraction prompt for a title, a company and the first
    2000 characters of a description, followed by [json.loads]; [None] when
    either raises, or when the reply is no JSON object, so that the first
    [parsed.get] raises. *)
Variable extract_skills : string -> string -> string -> option Parsed.

Definition _job_id (title company : string) : string :=
  String.substring 0 10 (md5_hexdigest (title ++ company)).

(** The dictionary every scraper appends for a card. *)
Definition job_of_card (c : Card) : Raw.Job :=
  {| Raw.job_id := _job_id (title_text c) (company_text c);
     Raw.title := title_text c;
     Raw.company := company_text c;
     Raw.location := loc_text c;
     Raw.work_mode := card_work_mode c;
     Raw.job_url := link c;
     Raw.description := card_description c;
     Raw.required_skills := Typed [];
     Raw.preferred_skills := Typed [];
     Raw.posted_date := date_text c;
     Raw.experience_required := Typed (card_experience c);
     Raw.salary_range := card_salary c;
     Raw.source := card_source c;
     Raw.joining_date_flexible := Typed true |}.

Definition scrape_internshala (query : string) : list Raw.Job :=
  List.map job_of_card (internshala_cards query).

Definition scrape_indeed (query : string) : list Raw.Job :=
  List.map job_of_card (indeed_cards query).

Definition scrape_wellfound (query : string) : list Raw.Job :=
  List.map job_of_card (wellfound_cards query).

Definition scrape_linkedin (query : string) : list Raw.Job :=
  List.map job_of_card (linkedin_cards query).

(** [enrich_job_description]: writes four keys of the dictionary, all or
    none, with the values of the reply as they come. *)
Definition enrich_job_description (job : Raw.Job) : Raw.Job :=
  if (len (Raw.description job) <? 50)%nat then job
  else
    match extract_skills (Raw.title job) (Raw.company job)
                         (slice_to 2000 (Raw.description job)) with
    | None => job
    | Some parsed =>
        {| Raw.job_id := Raw.job_id job;
           Raw.title := Raw.title job;
           Raw.company := Raw.company job;
           Raw.location := Raw.location job;
           Raw.work_mode := Raw.work_mode job;
           Raw.job_url := Raw.job_url job;
           Raw.description := Raw.description job;
           Raw.required_skills :=
             default (Typed []) (parsed_required_skills parsed);
           Raw.preferred_skills :=
             default (Typed []) (parsed_preferred_skills parsed);
           Raw.posted_date := Raw.posted_date job;
           Raw.experience_required :=
             default (Raw.experience_required job)
                     (parsed_experience_required parsed);
           Raw.salary_range := Raw.salary_range job;
           Raw.source := Raw.source job;
           Raw.joining_date_flexible :=
             default (Typed true) (parsed_joining_date_flexible parsed) |}
    end.

(** The [JobListing] built from the keys of the dictionary, with the
    score at its default; [None] when validation raises, which it does when
    one of the four enriched keys holds a value of the wrong type. *)
Definition to_listing (job : Raw.Job) : option JobListing :=
  required ← typed (Raw.required_skills job);
  preferred ← typed (Raw.preferred_skills job);
  experience ← typed (Raw.experience_required job);
  flexible ← typed (Raw.joining_date_flexible job);
  Some {| job_id := Raw.job_id job; title := Raw.title job;
          company := Raw.company job; location := Raw.location job;
          work_mode := Raw.work_mode job; job_url := Raw.job_url job;
          description := Raw.description job;
          required_skills := required;
          preferred_skills := preferred;
          posted_date := Some (Raw.posted_date job);
          experience_required := experience;
          salary_range := Raw.salary_range job; source := Raw.source job;
          joining_date_flexible := flexible;
          relevance_score := 0%Q |}.

(** [if job["job_id"] not in seen_ids: seen_ids.add(...); all_raw_jobs.append(job)] *)
Definition add_new (acc : gset string * list Raw.Job) (job : Raw.Job)
    : gset string * list Raw.Job :=
  let '(seen_ids, all_raw_jobs) := acc in
  if decide (Raw.job_id job ∈ seen_ids) then (seen_ids, all_raw_jobs)
  else ({[Raw.job_id job]} ∪ seen_ids, (all_raw_jobs ++ [job])%list).

(** [for job in scrape(query): ...] *)
Definition collect (acc : gset string * list Raw.Job) (jobs : list Raw.Job)
    : gset string * list Raw.Job :=
  fold_left add_new jobs acc.

(** [SCRAPE_SOURCES.get(name)] as a condition. *)
Definition source_enabled (name : string) : bool :=
  default false (SCRAPE_SOURCES !! name).

(** The body of [for query in queries[:6]]. *)
Definition query_step (acc : gset string * list Raw.Job) (query : string)
    : gset string * list Raw.Job :=
  let acc := if source_enabled "internshala"
             then collect acc (scrape_internshala query) else acc in
  let acc := if source_enabled "indeed"
             then collect acc (scrape_indeed query) else acc in
  let acc := if source_enabled "wellfound"
             then collect acc (scrape_wellfound query) else acc in
  let acc := if source_enabled "linkedin"
             then collect acc (scrape_linkedin query) else acc in
  acc.

Definition discover (queries : list string) : gset string * list Raw.Job :=
  fold_left query_step (firstn 6 queries) (∅, []).

(** [job_discovery_node].  The first 40 dictionaries are enriched in place,
    so [raw_jobs] holds the enriched ones; an enriched dictionary that fails
    validation is logged and left out of [filtered_jobs]. *)
Definition job_discovery_node (state : AgentState) : AgentState :=
  let queries := default SEARCH_QUERIES (search_queries state) in
  let all_raw_jobs := snd (discover queries) in
  let enriched := List.map enrich_job_description (firstn 40 all_raw_jobs) in
  let filtered := omap to_listing enriched in
  {| search_queries := search_queries state;
     raw_jobs := (enriched ++ skipn 40 all_raw_jobs)%list;
     filtered_jobs := filtered;
     scored_jobs := scored_jobs state;
     selected_jobs := selected_jobs state |}.

(** The postings in the order the node meets them. *)
Definition sources (query : string) : list Raw.Job :=
  ((if source_enabled "internshala" then scrape_internshala query else []) ++
   (if source_enabled "indeed" then scrape_indeed query else []) ++
   (if source_enabled "wellfound" then scrape_wellfound query else []) ++
   (if source_enabled "linkedin" then scrape_linkedin query else []))%list.

Definition discovered (queries : list string) : list Raw.Job :=
  List.concat (List.map sources (firstn 6 queries)).

End Discovery.

(** ** nodes/job_discovery.py: scraper utilities *)

(** What one call of [requests.get] does: it raises, or it returns a
    response. *)
Record Response := mkResponse {
  status_code : Z;
  text : string
}.

Inductive Outcome :=
| Raised
| Responded (resp : Response).

(** [c.isdigit()] on one ASCII character. *)
Definition isdigit (c : ascii) : bool :=
  let n := nat_of_ascii c in (48 <=? n)%nat && (n <=? 57)%nat.

(** ["".join(filter(str.isdigit, s))] *)
Fixpoint digits (s : string) : string :=
  match s with
  | EmptyString => EmptyString
  | String c s' => if isdigit c then String c (digits s') else digits s'
  end.

(** [any(c.isdigit() for c in s)] *)
Fixpoint any_digit (s : string) : bool :=
  match s with
  | EmptyString => false
  | String c s' => isdigit c || any_digit s'
  end.

(** [int(s)] for a string of ASCII digits, most significant first; the
    limit Python puts on the number of digits is not modelled. *)
Fixpoint int_from (acc : Z) (s : string) : Z :=
  match s with
  | EmptyString => acc
  | String c s' => int_from (10 * acc + (Z.of_nat (nat_of_ascii c) - 48)) s'
  end.

Definition int (s : string) : Z := int_from 0 s.

(** [str(n)] for a natural number. *)
Definition str (n : nat) : string := NilEmpty.string_of_uint (Nat.to_uint n).

(** [s.replace(" ", new)] *)
Fixpoint replace_space (new s : string) : string :=
  match s with
  | EmptyString => EmptyString
  | String c s' =>
      if Ascii.eqb c " " then new ++ replace_space new s'
      else String c (replace_space new s')
  end.

(** [s.split("?")[0]]: the text before the first question mark. *)
Fixpoint before_query (s : string) : string :=
  match s with
  | EmptyString => EmptyString
  | String c s' => if Ascii.eqb c "?" then EmptyString else String c (before_query s')
  end.

(** [s.startswith("/")] *)
Definition starts_with_slash (s : string) : bool := String.prefix "/" s.

Definition JOB_MAX_AGE_DAYS : Z := 7.

Definition WORK_MODES : list string := ["Remote"; "Hybrid"; "Onsite"].

Definition _is_blacklisted (text : string) : bool :=
  let text_lower := lower text in
  existsb (fun kw => contains (lower kw) text_lower) BLACKLIST_KEYWORDS.

(** An element found in a page: its stripped text and its attributes. *)
Record Element := mkElement {
  get_text : string;
  attrs : gmap string string
}.

(** The elements a scraper looks up inside one result card; [None] is a
    lookup that found nothing.  Each site reads the fields it has. *)
Record Found := mkFound {
  title_el : option Element;
  company_el : option Element;
  location_el : option Element;
  date_el : option Element;
  link_el : option Element;
  duration_el : option Element;
  stipend_el : option Element
}.

(** [el.get_text(strip=True) if el else default] *)
Definition text_or (el : option Element) (default : string) : string :=
  match el with Some e => get_text e | None => default end.

Section Scraping.

(** The outcome of the [attempt]-th request a call makes for a URL. *)
Variable requests_get : string -> nat -> Outcome.

(** [datetime.strptime(date_str, fmt)] followed by
    [(datetime.now() - dt).days]; [None] when the text does not parse. *)
Variable age_in_days : string -> string -> option Z.

(** [soup.find_all] for the result cards of each site, on a page body. *)
Variable internshala_listings : string -> list Found.
Variable indeed_result_cards : string -> list Found.
Variable wellfound_result_cards : string -> list Found.
Variable linkedin_base_cards : string -> list Found.
Variable linkedin_result_cards : string -> list Found.

(** The [for attempt in range(retries)] loop: the response, if any, and the
    number of requests made.  Every request that does not return is followed
    by a sleep. *)
Fixpoint safe_get_loop (url : string) (attempt remaining : nat)
    : option Response * nat :=
  match remaining with
  | O => (None, attempt)
  | S remaining' =>
      match requests_get url attempt with
      | Responded resp =>
          if (status_code resp =? 200)%Z then (Some resp, S attempt)
          else safe_get_loop url (S attempt) remaining'
      | Raised => safe_get_loop url (S attempt) remaining'
      end
  end.

Definition _safe_get (url : string) (retries : nat) : option Response :=
  fst (safe_get_loop url 0 retries).

(** The loop over the three absolute formats: the first one that parses
    decides. *)
Fixpoint absolute_within (date_str : string) (days : Z) (formats : list string)
    : option bool :=
  match formats with
  | [] => None
  | fmt :: formats' =>
      match age_in_days fmt date_str with
      | Some age => Some (age <=? days)%Z
      | None => absolute_within date_str days formats'
      end
  end.

Definition _within_days (date_str : string) (days : Z) : bool :=
  match date_str with
  | EmptyString => true
  | _ =>
      if contains "hour" date_str || contains "minute" date_str ||
         contains "second" date_str then true
      else if contains "day" date_str then
        let n := if any_digit date_str then int (digits date_str) else 1%Z in
        (n <=? days)%Z
      else if contains "week" date_str then
        let n := if any_digit date_str then int (digits date_str) else 1%Z in
        (n * 7 <=? days)%Z
      else if contains "month" date_str then false
      else
        default true
          (absolute_within date_str days ["%Y-%m-%d"; "%d %b %Y"; "%B %d, %Y"])
  end.

(** [Remote] or a fallback, from the location text. *)
Definition remote_or (fallback loc_text : string) : string :=
  if contains "remote" (lower loc_text) then "Remote" else fallback.

(** The three-way work mode the LinkedIn scrapers detect. *)
Definition detect_work_mode (loc_text : string) : string :=
  let loc_lower := lower loc_text in
  if contains "remote" loc_lower then "Remote"
  else if contains "hybrid" loc_lower then "Hybrid"
  else "Onsite".

(** One iteration of the loop of [scrape_internshala]; [None] when the card
    is skipped, by [continue] or by the [except] clause. *)
Definition internshala_card (url : string) (listing : Found) : option Card :=
  let title_text := text_or (title_el listing) "ML/AI Intern" in
  let company_text := text_or (company_el listing) "Unknown" in
  let loc_text := text_or (location_el listing) "India" in
  link ← match link_el listing with
         | Some tag => href ← attrs tag !! "href";
                       Some ("https://internshala.com" ++ href)
         | None => Some url
         end;
  if _is_blacklisted title_text then None
  else Some
    {| title_text := title_text;
       company_text := company_text;
       loc_text := loc_text;
       card_work_mode := remote_or "Onsite" loc_text;
       link := link;
       card_description :=
         title_text ++ " at " ++ company_text ++
         ". Duration: " ++ text_or (duration_el listing) "N/A" ++
         ". Stipend: " ++ text_or (stipend_el listing) "N/A";
       date_text := text_or (date_el listing) "";
       card_experience := "Fresher / Intern";
       card_salary := get_text <$> stipend_el listing;
       card_source := "internshala" |}.

Definition scrape_internshala_cards (query : string) : list Card :=
  let search_term := lower (replace_space "-" query) in
  let url := "https://internshala.com/internships/" ++ search_term ++
             "-internship/" in
  match _safe_get url 3 with
  | None => []
  | Some resp =>
      omap (internshala_card url) (firstn 10 (internshala_listings (text resp)))
  end.

Definition indeed_card (query location : string) (card : Found) : option Card :=
  let title_text := text_or (title_el card) query in
  let company_text := text_or (company_el card) "Unknown" in
  let loc_text := text_or (location_el card) location in
  let date_text := text_or (date_el card) "" in
  href ← match link_el card with
         | Some tag => attrs tag !! "href"
         | None => Some ""
         end;
  let link := if starts_with_slash href then "https://www.indeed.com" ++ href
              else href in
  if _is_blacklisted title_text then None
  else if negb (_within_days date_text JOB_MAX_AGE_DAYS) then None
  else Some
    {| title_text := title_text;
       company_text := company_text;
       loc_text := loc_text;
       card_work_mode := remote_or "Onsite" loc_text;
       link := link;
       card_description :=
         title_text ++ " at " ++ company_text ++ ". Location: " ++ loc_text;
       date_text := date_text;
       card_experience := "Entry Level";
       card_salary := None;
       card_source := "indeed" |}.

Definition scrape_indeed_cards (query : string) : list Card :=
  let location := "India" in
  let q := replace_space "+" query in
  let loc := replace_space "+" location in
  let url := "https://www.indeed.com/jobs?q=" ++ q ++ "&l=" ++ loc ++
             "&fromage=" ++ str (Z.to_nat JOB_MAX_AGE_DAYS) ++
             "&explvl=entry_level" in
  match _safe_get url 3 with
  | None => []
  | Some resp =>
      omap (indeed_card query location)
           (firstn 10 (indeed_result_cards (text resp)))
  end.

Definition wellfound_card (query url : string) (card : Found) : option Card :=
  let title_text := text_or (title_el card) query in
  let company_text := text_or (company_el card) "AI Startup" in
  let loc_text := text_or (location_el card) "Remote" in
  link ← match link_el card with
         | Some tag => href ← attrs tag !! "href";
                       Some ("https://wellfound.com" ++ href)
         | None => Some url
         end;
  if _is_blacklisted title_text then None
  else Some
    {| title_text := title_text;
       company_text := company_text;
       loc_text := loc_text;
       card_work_mode := remote_or "Hybrid" loc_text;
       link := link;
       card_description := title_text ++ " at " ++ company_text;
       date_text := "";
       card_experience := "Entry Level / Intern";
       card_salary := None;
       card_source := "wellfound" |}.

Definition scrape_wellfound_cards (query : string) : list Card :=
  let search := replace_space "%20" query in
  let url := "https://wellfound.com/jobs?q=" ++ search ++
             "&role=engineer&type=full_time%2Cinternship" in
  match _safe_get url 3 with
  | None => []
  | Some resp =>
      omap (wellfound_card query url)
           (firstn 8 (wellfound_result_cards (text resp)))
  end.

(** The dictionary both LinkedIn scrapers build. *)
Definition linkedin_dict (title_text company_text loc_text date_text link : string)
    : Card :=
  {| title_text := title_text;
     company_text := company_text;
     loc_text := loc_text;
     card_work_mode := detect_work_mode loc_text;
     link := link;
     card_description :=
       title_text ++ " at " ++ company_text ++ ". Location: " ++ loc_text;
     date_text := date_text;
     card_experience := "Entry Level / Intern";
     card_salary := None;
     card_source := "linkedin" |}.

(** [el.get("datetime", "") if el else ""] *)
Definition datetime_of (el : option Element) : string :=
  match el with
  | Some e => default "" (attrs e !! "datetime")
  | None => ""
  end.

Definition linkedin_fallback_card (query location : string) (card : Found)
    : option Card :=
  let title_text := text_or (title_el card) query in
  let company_text := text_or (company_el card) "Unknown" in
  let loc_text := text_or (location_el card) location in
  link ← match link_el card with
         | Some tag => before_query <$> attrs tag !! "href"
         | None => Some ""
         end;
  let date_text := datetime_of (date_el card) in
  if _is_blacklisted title_text || String.eqb link "" then None
  else Some (linkedin_dict title_text company_text loc_text date_text link).

Definition _scrape_linkedin_fallback (query location : string) : list Card :=
  let search_query := replace_space "%20" query in
  let location_query := replace_space "%20" location in
  let url := "https://www.linkedin.com/jobs/search/" ++
             "?keywords=" ++ search_query ++
             "&location=" ++ location_query ++
             "&f_E=1%2C2" ++ "&f_TPR=r604800" ++ "&position=1&pageNum=0" in
  match _safe_get url 3 with
  | None => []
  | Some resp =>
      omap (linkedin_fallback_card query location)
           (firstn 10 (linkedin_base_cards (text resp)))
  end.

Definition linkedin_card (query location : string) (card : Found) : option Card :=
  let title_text := text_or (title_el card) query in
  let company_text := text_or (company_el card) "Unknown" in
  let loc_text := text_or (location_el card) location in
  let date_text := datetime_of (date_el card) in
  link ← match link_el card with
         | Some tag => attrs tag !! "href"
         | None => Some ""
         end;
  let link := if contains "?" link then before_query link else link in
  if _is_blacklisted title_text then None
  else if negb (_within_days date_text JOB_MAX_AGE_DAYS) then None
  else if String.eqb link "" then None
  else Some (linkedin_dict title_text company_text loc_text date_text link).

Definition scrape_linkedin_cards (query : string) : list Card :=
  let location := "India" in
  let search_query := replace_space "%20" query in
  let location_query := replace_space "%20" location in
  let url := "https://www.linkedin.com/jobs-guest/jobs/api/seeMoreJobPostings/search" ++
             "?keywords=" ++ search_query ++
             "&location=" ++ location_query ++
             "&f_E=1%2C2" ++ "&f_TPR=r604800" ++ "&f_WT=2%2C1%2C3" ++ "&start=0" in
  match requests_get url 0 with
  | Raised => _scrape_linkedin_fallback query location
  | Responded resp =>
      if negb (status_code resp =? 200)%Z
      then _scrape_linkedin_fallback query location
      else
        let cards := linkedin_base_cards (text resp) in
        let cards := match cards with
                     | [] => linkedin_result_cards (text resp)
                     | _ => cards
                     end in
        omap (linkedin_card query location) (firstn 10 cards)
  end.

End Scraping.

(** ** agent.py: the first two nodes of the graph *)

(** The keys of [initial_state] in [run_agent] that the two nodes read;
    [custom_queries or SEARCH_QUERIES] falls back on an empty list too. *)
Definition run_initial_state (custom_queries : option (list string)) : AgentState :=
  {| search_queries :=
       Some match custom_queries with
            | Some (q :: qs) => q :: qs
            | _ => SEARCH_QUERIES
            end;
     raw_jobs := [];
     filtered_jobs := [];
     scored_jobs := [];
     selected_jobs := [] |}.

Section Graph.

Variable md5_hexdigest : string -> string.
Variable requests_get : string -> nat -> Outcome.
Variable age_in_days : string -> string -> option Z.
Variable internshala_listings indeed_result_cards wellfound_result_cards
         linkedin_base_cards linkedin_result_cards : string -> list Found.
Variable extract_skills : string -> string -> string -> option Parsed.
Variable cosine_similarity : list Q -> list Q -> option Q.
Variable embeddings_model : option Embeddings.

(** [job_discovery_node] on the four scrapers of the module. *)
Definition job_discovery_scraping (state : AgentState) : AgentState :=
  job_discovery_node md5_hexdigest
    (scrape_internshala_cards requests_get internshala_listings)
    (scrape_indeed_cards requests_get age_in_days indeed_result_cards)
    (scrape_wellfound_cards requests_get wellfound_result_cards)
    (scrape_linkedin_cards requests_get age_in_days linkedin_base_cards
       linkedin_result_cards)
    extract_skills state.

(** The edge [job_discovery -> relevance_scoring] of [build_agent]. *)
Definition discover_then_score (state : AgentState) : AgentState :=
  relevance_scoring_node cosine_similarity embeddings_model
    (job_discovery_scraping state).

End Graph.

(** * Vocabulary of the properties *)

(** ** Text *)

(** [kw] occurs in [s]: the meaning of Python's [kw in s]. *)
Definition Substring (kw s : string) : Prop :=
  exists pre suf, s = pre ++ kw ++ suf.

(** Some keyword of [kws] occurs in [text]. *)
Definition Mentions (kws : list string) (text : string) : Prop :=
  exists kw, In kw kws /\ Substring kw text.

(** The suffixes of [kw] shorter than [kw], longest first. *)
Fixpoint proper_suffixes (kw : string) : list string :=
  match kw with
  | EmptyString => []
  | String _ k => k :: proper_suffixes k
  end.

(** Some non-empty proper suffix of [kw] starts [b]: an occurrence of [kw]
    could begin before [b] and end inside it. *)
Definition overlaps (kw b : string) : bool :=
  existsb (fun k => negb (String.eqb k "") && String.prefix k b)
          (proper_suffixes kw).

(** ** Scoring *)

(** The text the blacklist is matched against: title, description and
    experience requirement, joined by single spaces. *)
Definition blacklist_text (job : JobListing) : string :=
  title job ++ " " ++ description job ++ " " ++ experience_required job.

(** The text the experience tiers are matched against: experience
    requirement and description, joined by a space, case folded. *)
Definition experience_text (job : JobListing) : string :=
  lower (experience_required job ++ " " ++ description job).

(** A required skill is present when it equals, up to case, one of the
    candidate's skills. *)
Definition skill_present (skill : string) : bool :=
  existsb (fun c => String.eqb (lower c) (lower skill)) ALL_SKILLS.

(** The fraction of the required skills of [job] that are present. *)
Definition present_fraction (job : JobListing) : Q :=
  (inject_Z (count_if skill_present (required_skills job)) /
   inject_Z (Z.of_nat (List.length (required_skills job))))%Q.




(** [p] and [q] agree on every field except work mode and the
    start-date-flexible flag. *)
Definition same_except_eligibility (p q : JobListing) : Prop :=
  job_id p = job_id q /\ title p = title q /\ company p = company q /\
  location p = location q /\ job_url p = job_url q /\
  description p = description q /\
  required_skills p = required_skills q /\
  preferred_skills p = preferred_skills q /\
  posted_date p = posted_date q /\
  experience_required p = experience_required q /\
  salary_range p = salary_range q /\ source p = source q /\
  relevance_score p = relevance_score q.

(** [r] is [x] rounded to one decimal: a tenth at most 0.05 away from [x].
    That is the nearest tenth, or either of the two nearest when [x] lies
    half-way between them. *)
Definition rounds_to_tenth (x r : Q) : Prop :=
  (exists k : Z, r == k # 10)%Q /\ (x - (1 # 20) <= r)%Q /\ (r <= x + (1 # 20))%Q.

(** Some call inside the [try] block of [_semantic_similarity] raises. *)
Definition invocation_raises
    (cosine_similarity : list Q -> list Q -> option Q)
    (m : Embeddings) (job : JobListing) : Prop :=
  embed_query m candidate_profile = None \/
  embed_query m (job_text job) = None \/
  exists a b, embed_query m candidate_profile = Some a /\
              embed_query m (job_text job) = Some b /\
              cosine_similarity a b = None.

(** ** Selection *)

(** [a] may stand before [b] in a list sorted descending by score. *)
Definition score_ge (a b : JobListing) : Prop :=
  (relevance_score b <= relevance_score a)%Q.


(** The postings of [l] at or above the threshold, in the order of [l]. *)
Definition at_least (threshold : Q) (l : list JobListing) : list JobListing :=
  List.filter (fun j => Qle_bool threshold (relevance_score j)) l.

(** ** Discovery *)

(** The posting carries the identifier of its own title and company. *)
Definition has_derived_id (md5_hexdigest : string -> string) (j : Raw.Job) : Prop :=
  Raw.job_id j = _job_id md5_hexdigest (Raw.title j) (Raw.company j).

(** The postings of [l] whose identifier is new, first occurrence only. *)
Fixpoint first_seen (seen : gset string) (l : list Raw.Job) : list Raw.Job :=
  match l with
  | [] => []
  | j :: l =>
      if decide (Raw.job_id j ∈ seen) then first_seen seen l
      else j :: first_seen ({[Raw.job_id j]} ∪ seen) l
  end.

(** The first posting of [l] with the identifier [id]. *)
Definition first_with_id (id : string) (l : list Raw.Job) : option Raw.Job :=
  List.find (fun j => String.eqb (Raw.job_id j) id) l.

(** ** The scoring node, further *)

(** What the node leaves in [filtered_jobs]: each posting, scored in place
    unless it is disqualified. *)
Definition score_in_place (cosine_similarity : list Q -> list Q -> option Q)
    (embeddings_model : option Embeddings) (j : JobListing) : JobListing :=
  if _is_disqualified j then j
  else score_job cosine_similarity embeddings_model j.

(** A priority term occurs in the description or inside one of the listed
    skills, up to case. *)
Definition term_listed (job : JobListing) (tech : string) : bool :=
  contains tech (lower (description job)) ||
  existsb (fun skill => contains tech (lower skill))
          (required_skills job ++ preferred_skills job)%list.

(** Every similarity the library returns is a cosine: between -1 and 1. *)
Definition cosine_in_range (cosine_similarity : list Q -> list Q -> option Q) : Prop :=
  forall a b sim, cosine_similarity a b = Some sim ->
                  (- (1) <= sim)%Q /\ (sim <= 1)%Q.

(** ** Discovery, further *)

(** A request that gives [_safe_get] nothing to return: it raised, or the
    status was not 200. *)
Definition attempt_failed (o : Outcome) : Prop :=
  match o with
  | Raised => True
  | Responded resp => status_code resp <> 200%Z
  end.

(** A card as a scraper for [site] leaves it: the title passed the
    blacklist, the source tag is the site's, the work mode is a known one. *)
Definition well_scraped (site : string) (c : Card) : Prop :=
  _is_blacklisted (title_text c) = false /\
  card_source c = site /\
  In (card_work_mode c) WORK_MODES.

(** The experience texts the scrapers write. *)
Definition scraped_experience (c : Card) : Prop :=
  In (card_experience c) ["Fresher / Intern"; "Entry Level"; "Entry Level / Intern"].

(** The queries a run of [run_agent] hands to the scrapers. *)
Definition searched (custom_queries : option (list string)) : list string :=
  firstn 6 (default SEARCH_QUERIES (search_queries (run_initial_state custom_queries))).

(** Two scrapers show the same cards for a query. *)
Definition same_cards (query : string) (site site' : string -> list Card) : Prop :=
  site query = site' query.

(** The dictionary passes the validation of [JobListing]. *)
Definition validates (job : Raw.Job) : Prop := is_Some (to_listing job).

(** The language model is down: every extraction raises. *)
Definition llm_down (extract_skills : string -> string -> string -> option Parsed) : Prop :=
  forall title company description, extract_skills title company description = None.

(** Every character is an ASCII digit. *)
Fixpoint all_digits (s : string) : bool :=
  match s with
  | EmptyString => true
  | String c s' => isdigit c && all_digits s'
  end.

(** * Sample data *)

(** ** Postings *)

(** A posting as discovery builds it, with the fields scoring reads left
    open and the score at its default [0.0]. *)
Definition posting (title company description : string)
    (required_skills preferred_skills : list string)
    (experience_required : string) : JobListing :=
  {| job_id := "0000000000"; title := title; company := company;
     location := "India"; work_mode := "Onsite";
     job_url := "https://example.com/job"; description := description;
     required_skills := required_skills;
     preferred_skills := preferred_skills; posted_date := None;
     experience_required := experience_required; salary_range := None;
     source := "linkedin"; joining_date_flexible := true;
     relevance_score := 0%Q |}.

(** The posting of the end-to-end scenario. *)
Definition acme_job : JobListing :=
  posting "ML Intern" "Acme AI" "Build LangChain and RAG pipelines"
          ["Python"; "PyTorch"] [] "Machine Learning Intern, fresher welcome".

(** The scenario posting offered as remote work with a fixed start date. *)
Definition acme_job_remote : JobListing :=
  {| job_id := job_id acme_job; title := title acme_job;
     company := company acme_job; location := location acme_job;
     work_mode := "Remote"; job_url := job_url acme_job;
     description := description acme_job;
     required_skills := required_skills acme_job;
     preferred_skills := preferred_skills acme_job;
     posted_date := posted_date acme_job;
     experience_required := experience_required acme_job;
     salary_range := salary_range acme_job; source := source acme_job;
     joining_date_flexible := false;
     relevance_score := relevance_score acme_job |}.

(** One of three required skills is the candidate's. *)
Definition legacy_job : JobListing :=
  posting "Software Engineer" "Initech" "Maintain billing systems"
          ["Python"; "COBOL"; "Fortran"] [] "Junior, 1-2 years".

(** Four of eleven required skills are the candidate's: the components add
    up to 39.55, half-way between two tenths. *)
Definition halfway_job : JobListing :=
  posting "Software Intern" "Initech" "Billing systems"
          ["Python"; "Java"; "Flask"; "React"; "COBOL"; "Fortran"; "Perl";
           "Ruby"; "Scala"; "Haskell"; "Erlang"] [] "Intern".

(** Every deterministic component is zero and the description is empty. *)
Definition cobol_job : JobListing :=
  posting "COBOL Developer" "Initech" "" ["COBOL"] [] "4+ yrs".

(** A posting the blacklist rejects. *)
Definition senior_job : JobListing :=
  posting "Senior ML Engineer" "Acme AI" "Build LangChain and RAG pipelines"
          ["Python"; "PyTorch"] [] "Fresher welcome".


(** The run context holding the given postings, before scoring. *)
Definition initial_state (jobs : list JobListing) : AgentState :=
  {| search_queries := None; raw_jobs := []; filtered_jobs := jobs;
     scored_jobs := []; selected_jobs := [] |}.

(** ** Collaborators *)

Definition dot (a b : list Q) : Q :=
  fold_right Qplus 0%Q (List.map (fun '(x, y) => (x * y)%Q) (combine a b)).

(** [cosine_similarity] on vectors of norm one, where it is the dot product;
    other inputs are outside this sample. *)
Definition unit_cosine (a b : list Q) : option Q :=
  if Nat.eqb (List.length a) (List.length b) &&
     Qeq_bool (dot a a) 1 && Qeq_bool (dot b b) 1
  then Some (dot a b) else None.

(** An embedding model whose [embed_query] always raises. *)
Definition failing_embeddings : Embeddings :=
  {| embed_query := fun _ => None |}.

(** An embedding model that places every posting opposite to the candidate
    profile. *)
Definition opposed_embeddings : Embeddings :=
  {| embed_query := fun text =>
       if String.eqb text candidate_profile
       then Some [1%Q; 0%Q] else Some [(-1)%Q; 0%Q] |}.

(** A similarity that makes every posting half similar to the candidate. *)
Definition half_cosine (a b : list Q) : option Q := Some (1 # 2)%Q.

(** An embedding model that embeds every text as the same unit vector. *)
Definition constant_embeddings : Embeddings :=
  {| embed_query := fun _ => Some [1%Q; 0%Q] |}.

(** A page on which every site shows one internship card and one card for
    a senior role. *)
Definition sample_page (body : string) : list Found :=
  [ {| title_el := Some {| get_text := "ML Intern"; attrs := ∅ |};
       company_el := Some {| get_text := "Acme AI"; attrs := ∅ |};
       location_el := Some {| get_text := "Remote, India"; attrs := ∅ |};
       date_el := None;
       link_el := Some {| get_text := "View";
                          attrs := {[ "href" := "/jobs/42?trk=guest" ]} |};
       duration_el := None; stipend_el := None |};
    {| title_el := Some {| get_text := "Senior ML Engineer"; attrs := ∅ |};
       company_el := None; location_el := None; date_el := None;
       link_el := None; duration_el := None; stipend_el := None |} ].

Definition no_page (body : string) : list Found := [].

(** A site that is down twice and then answers. *)
Definition flaky_site (url : string) (attempt : nat) : Outcome :=
  match attempt with
  | 0%nat => Raised
  | 1%nat => Responded {| status_code := 503; text := "" |}
  | _ => Responded {| status_code := 200; text := "<html>" |}
  end.

(** A clock that reads a text only under the format that spells it out,
    as a date 400 days back. *)
Definition literal_clock (fmt date_str : string) : option Z :=
  if String.eqb fmt date_str then Some 400%Z else None.

(** A clock that reads no absolute date. *)
Definition no_absolute_date (fmt date_str : string) : option Z := None.

(** ** A discovery run *)

(** A stand-in digest, enough to run the loop: equal texts, equal digests. *)
Definition sample_digest (text : string) : string := text.

Definition sample_card (title company site : string) : Card :=
  {| title_text := title; company_text := company; loc_text := "Remote";
     card_work_mode := "Remote"; link := "https://example.com/" ++ site;
     card_description := title ++ " at " ++ company;
     date_text := ""; card_experience := "Entry Level / Intern";
     card_salary := None; card_source := site |}.

(** Internshala and LinkedIn both list the same internship. *)
Definition sample_internshala (query : string) : list Card :=
  [sample_card "ML Intern" "Acme AI" "internshala";
   sample_card "NLP Intern" "Initech" "internshala"].

Definition sample_linkedin (query : string) : list Card :=
  [sample_card "ML Intern" "Acme AI" "linkedin";
   sample_card "GenAI Intern" "Hooli" "linkedin"].

Definition no_cards (query : string) : list Card := [].

Definition no_reply (title company description : string) : option Parsed := None.

Definition sample_discovery : AgentState :=
  job_discovery_node sample_digest sample_internshala no_cards no_cards
    sample_linkedin no_reply
    {| search_queries := Some ["ML Intern"]; raw_jobs := [];
       filtered_jobs := []; scored_jobs := []; selected_jobs := [] |}.

(** A run on the scrapers: Internshala answers on the third attempt, the
    other sites show nothing, and the language model is down. *)
Definition sample_scraped_run : AgentState :=
  job_discovery_scraping sample_digest flaky_site no_absolute_date
    sample_page no_page no_page no_page no_page no_reply
    {| search_queries := Some ["ML Intern"]; raw_jobs := [];
       filtered_jobs := []; scored_jobs := []; selected_jobs := [] |}.

(** Wellfound lists two postings with a description long enough to be
    enriched. *)
Definition described_card (title company : string) : Card :=
  {| title_text := title; company_text := company; loc_text := "Remote";
     card_work_mode := "Remote"; link := "https://wellfound.com/jobs";
     card_description :=
       title ++ " at " ++ company ++
       ". Build and evaluate retrieval pipelines with the team.";
     date_text := ""; card_experience := "Entry Level";
     card_salary := None; card_source := "wellfound" |}.

Definition sample_wellfound (query : string) : list Card :=
  [described_card "RAG Intern" "Globex"; described_card "LLM Intern" "Initech"].

(** A reply with [null] under [required_skills] for one posting, and a
    reply of the declared types for every other. *)
Definition null_reply (title company description : string) : option Parsed :=
  Some {| parsed_required_skills :=
            Some (if String.eqb title "RAG Intern" then Untyped
                  else Typed ["Python"; "LangChain"]);
          parsed_preferred_skills := Some (Typed []);
          parsed_experience_required := None;
          parsed_joining_date_flexible := Some (Typed true) |}.

Definition sample_refused : AgentState :=
  job_discovery_node sample_digest no_cards no_cards sample_wellfound no_cards
    null_reply
    {| search_queries := Some ["RAG Intern"]; raw_jobs := [];
       filtered_jobs := []; scored_jobs := []; selected_jobs := [] |}.

(** Internshala as in [sample_internshala], except for one query. *)
Definition other_internshala (query : string) : list Card :=
  if String.eqb query "MLOps intern"
  then [sample_card "MLOps Intern" "Globex" "internshala"]
  else sample_internshala query.

(** * Properties *)

(** ** Substring search *)

Lemma prefix_iff (kw s : string) :
  String.prefix kw s = true <-> exists suf, s = kw ++ suf.
Proof.
  revert s; induction kw as [|a kw IH]; intros s; simpl.
  - destruct s; simpl; split; eauto.
  - destruct s as [|b s]; simpl.
    + split; [discriminate | intros [suf H]; discriminate].
    + destruct (ascii_dec a b) as [->|Hne].
      * rewrite IH. split; intros [suf H]; exists suf; [subst s; reflexivity | ].
        injection H as H. exact H.
      * split; [discriminate | intros [suf H]; injection H as H1 H2; congruence].
Qed.

Lemma contains_iff (kw s : string) :
  contains kw s = true <-> Substring kw s.
Proof.
  unfold Substring. induction s as [|c s IH]; cbn [contains].
  - rewrite orb_false_r, prefix_iff. split.
    + intros [suf H]. exists "", suf. exact H.
    + intros ([|? pre] & suf & H); [eauto | discriminate].
  - rewrite orb_true_iff, prefix_iff, IH. split.
    + intros [[suf H] | (pre & suf & H)].
      * exists "", suf. exact H.
      * exists (String c pre), suf. rewrite H. reflexivity.
    + intros ([|c' pre] & suf & H).
      * left. eauto.
      * right. exists pre, suf. change (String c s = String c' (pre ++ kw ++ suf)) in H.
        congruence.
Qed.

Lemma any_in_iff (kws : list string) (text : string) :
  any_in kws text = true <-> exists kw, In kw kws /\ Substring kw text.
Proof.
  unfold any_in. rewrite existsb_exists.
  split; intros (kw & Hin & H); exists kw; split; auto; apply contains_iff; auto.
Qed.

Lemma append_cons (c : ascii) (a b : string) :
  String c a ++ b = String c (a ++ b).
Proof. reflexivity. Qed.

Lemma lower_app (a b : string) : lower (a ++ b) = lower a ++ lower b.
Proof.
  induction a as [|c a IH]; [reflexivity|].
  rewrite append_cons. cbn [lower]. rewrite IH. reflexivity.
Qed.

Lemma str_or_empty (s : string) : str_or s "" = s.
Proof. destruct s; reflexivity. Qed.

Lemma str_in_iff (x : string) (xs : list string) :
  str_in x xs = true <-> In x xs.
Proof.
  unfold str_in. rewrite existsb_exists. split.
  - intros (y & Hin & E). apply String.eqb_eq in E. congruence.
  - intros H. exists x. split; auto. apply String.eqb_refl.
Qed.

Lemma count_if_bounds {A} (p : A -> bool) (xs : list A) :
  (0 <= count_if p xs <= Z.of_nat (List.length xs))%Z.
Proof.
  unfold count_if. pose proof (List.filter_length_le p xs). lia.
Qed.

(** ** Substrings of a concatenation *)

Lemma append_nil_r (a : string) : a ++ "" = a.
Proof. induction a as [|c a IH]; [reflexivity|]. rewrite append_cons, IH. reflexivity. Qed.

Lemma append_assoc (a b c : string) : (a ++ b) ++ c = a ++ b ++ c.
Proof.
  induction a as [|x a IH]; [reflexivity|]. rewrite !append_cons, IH. reflexivity.
Qed.

Lemma Substring_app_l (kw a b : string) : Substring kw a -> Substring kw (a ++ b).
Proof.
  intros (pre & suf & ->). exists pre, (suf ++ b). rewrite !append_assoc. reflexivity.
Qed.

Lemma Substring_app_r (kw a b : string) : Substring kw b -> Substring kw (a ++ b).
Proof.
  intros (pre & suf & ->). exists (a ++ pre), suf. rewrite !append_assoc. reflexivity.
Qed.

Lemma prefix_app_cases (kw a b : string) :
  String.prefix kw (a ++ b) = true ->
  String.prefix kw a = true \/
  exists k, kw = a ++ k /\ String.prefix k b = true.
Proof.
  revert kw. induction a as [|c a IH]; intros kw H.
  - right. exists kw. split; [reflexivity | exact H].
  - destruct kw as [|c' kw]; [left; reflexivity|].
    rewrite append_cons in H. cbn [String.prefix] in *.
    destruct (ascii_dec c' c) as [->|]; [|discriminate].
    destruct (IH kw H) as [Hp | (k & -> & Hk)]; [left; exact Hp|].
    right. exists k. split; [reflexivity | exact Hk].
Qed.

Lemma proper_suffixes_app (c : ascii) (a k : string) :
  In k (proper_suffixes (String c a ++ k)).
Proof.
  revert c. induction a as [|x a IH]; intros c.
  - left. reflexivity.
  - rewrite append_cons. cbn [proper_suffixes]. right. apply IH.
Qed.

Lemma contains_app_cases (kw a b : string) :
  contains kw (a ++ b) = true ->
  contains kw a = true \/ contains kw b = true \/ overlaps kw b = true.
Proof.
  induction a as [|c a IH]; intros H; [right; left; exact H|].
  rewrite append_cons in H. cbn [contains] in H.
  apply orb_true_iff in H as [H | H].
  - rewrite <- append_cons in H.
    apply prefix_app_cases in H as [Hp | (k & -> & Hk)].
    + left. cbn [contains]. rewrite Hp. reflexivity.
    + destruct k as [|x k].
      * left. rewrite append_nil_r. apply contains_iff. exists "", "".
        rewrite append_nil_r. reflexivity.
      * right; right. unfold overlaps. apply existsb_exists.
        exists (String x k). split; [apply proper_suffixes_app|].
        rewrite Hk. reflexivity.
  - destruct (IH H) as [Ha | Hb]; [|right; exact Hb].
    left. cbn [contains]. rewrite Ha. apply orb_true_r.
Qed.

(** Without an overlap, [kw] occurs in [a ++ b] exactly when it occurs in
    [a] or in [b]. *)
Lemma contains_app (kw a b : string) :
  overlaps kw b = false ->
  contains kw (a ++ b) = contains kw a || contains kw b.
Proof.
  intros Ho. apply eq_true_iff_eq. rewrite orb_true_iff. split.
  - intros H. apply contains_app_cases in H as [H | [H | H]]; auto. congruence.
  - rewrite !contains_iff. intros [H | H];
      [apply Substring_app_l | apply Substring_app_r]; exact H.
Qed.

(** ** Rounding *)

Lemma round_half_even_cases (x : Q) :
  let q := Qfloor x in
  (round_half_even x = q /\ (x - inject_Z q <= 1 # 2)%Q) \/
  (round_half_even x = (q + 1)%Z /\ (1 # 2 <= x - inject_Z q)%Q).
Proof.
  intros q. unfold round_half_even. fold q.
  destruct (x - inject_Z q ?= 1 # 2)%Q eqn:E.
  - apply Qeq_alt in E. destruct (Z.even q); [left | right]; split; auto;
      rewrite E; apply Qle_refl.
  - apply Qlt_alt in E. left. split; auto. apply Qlt_le_weak; exact E.
  - apply Qgt_alt in E. right. split; auto. apply Qlt_le_weak; exact E.
Qed.

Lemma round_half_even_comp (x y : Q) :
  (x == y)%Q -> round_half_even x = round_half_even y.
Proof.
  intros H. unfold round_half_even. rewrite (Qfloor_comp _ _ H).
  assert (E : (x - inject_Z (Qfloor y) ?= 1 # 2)%Q =
              (y - inject_Z (Qfloor y) ?= 1 # 2)%Q)
    by (rewrite H; reflexivity).
  rewrite E. reflexivity.
Qed.

Lemma round_half_even_bounds (x : Q) (a b : Z) :
  (inject_Z a <= x)%Q -> (x <= inject_Z b)%Q ->
  (a <= round_half_even x <= b)%Z.
Proof.
  intros Ha Hb.
  pose proof (Qfloor_le x) as Hfl. pose proof (Qlt_floor x) as Hfu.
  assert (Hqa : (a <= Qfloor x)%Z).
  { rewrite <- (Qfloor_Z a). apply Qfloor_resp_le. exact Ha. }
  rewrite inject_Z_plus in Hfu.
  destruct (round_half_even_cases x) as [[-> H] | [-> H]]; cbn zeta in *.
  - split; [exact Hqa|]. rewrite Zle_Qle. lra.
  - split; [lia|].
    assert (Hlt : (inject_Z (Qfloor x) < inject_Z b)%Q) by lra.
    rewrite <- Zlt_Qlt in Hlt. lia.
Qed.

(** Rounding to the nearest integer moves a number by at most one half. *)
Lemma round_half_even_error (x : Q) :
  (- (1 # 2) <= inject_Z (round_half_even x) - x)%Q /\
  (inject_Z (round_half_even x) - x <= 1 # 2)%Q.
Proof.
  pose proof (Qfloor_le x) as Hfl. pose proof (Qlt_floor x) as Hfu.
  rewrite inject_Z_plus in Hfu.
  destruct (round_half_even_cases x) as [[-> H] | [-> H]]; cbn zeta in *;
    rewrite ?inject_Z_plus; change (inject_Z 1) with 1%Q in *; split; lra.
Qed.

Lemma py_round_bounds (x : Q) (a b : Z) (ndigits : nat) :
  (inject_Z a <= x)%Q -> (x <= inject_Z b)%Q ->
  (inject_Z a <= py_round x ndigits)%Q /\ (py_round x ndigits <= inject_Z b)%Q.
Proof.
  intros Ha Hb. unfold py_round.
  set (p := Z.to_pos (10 ^ Z.of_nat ndigits)).
  destruct (round_half_even_bounds (x * inject_Z (Zpos p)) (a * Zpos p) (b * Zpos p))
    as [H1 H2].
  - rewrite inject_Z_mult. apply Qmult_le_compat_r; auto. unfold Qle; simpl; lia.
  - rewrite inject_Z_mult. apply Qmult_le_compat_r; auto. unfold Qle; simpl; lia.
  - unfold Qle; simpl. split; lia.
Qed.

Lemma py_round_comp (x y : Q) (ndigits : nat) :
  (x == y)%Q -> py_round x ndigits = py_round y ndigits.
Proof.
  intros H. unfold py_round. f_equal. apply round_half_even_comp.
  rewrite H. reflexivity.
Qed.

(** Rounding to one decimal gives a tenth at most 0.05 away. *)
Lemma py_round_1_tenth (x : Q) : rounds_to_tenth x (py_round x 1).
Proof.
  unfold rounds_to_tenth, py_round.
  change (Z.to_pos (10 ^ Z.of_nat 1)) with 10%positive.
  split; [eexists; reflexivity|].
  destruct (round_half_even_error (x * inject_Z 10)) as [H1 H2].
  set (r := round_half_even (x * inject_Z 10)) in *.
  rewrite (Qmake_Qdiv r 10).
  change (inject_Z 10) with 10%Q in *.
  unfold Qdiv. change (/ 10)%Q with (1 # 10)%Q.
  clearbody r. revert H1 H2. generalize (inject_Z r). intros y H1 H2.
  split; lra.
Qed.

Lemma rounds_to_tenth_comp (x y r : Q) :
  (x == y)%Q -> rounds_to_tenth x r -> rounds_to_tenth y r.
Proof.
  intros E (Hk & H1 & H2). split; [exact Hk|]. rewrite <- E. split; assumption.
Qed.

(** Rounding to two decimals moves a number by at most 0.005. *)
Lemma py_round_2_error (x : Q) :
  (- (1 # 200) <= py_round x 2 - x)%Q /\ (py_round x 2 - x <= 1 # 200)%Q.
Proof.
  unfold py_round. change (Z.to_pos (10 ^ Z.of_nat 2)) with 100%positive.
  destruct (round_half_even_error (x * inject_Z 100)) as [H1 H2].
  set (r := round_half_even (x * inject_Z 100)) in *.
  rewrite (Qmake_Qdiv r 100).
  change (inject_Z 100) with 100%Q in *.
  unfold Qdiv. change (/ 100)%Q with (1 # 100)%Q.
  clearbody r. revert H1 H2. generalize (inject_Z r). intros y H1 H2.
  split; lra.
Qed.

(** ** Sorting and selection *)

Lemma insert_desc_perm (j : JobListing) (l : list JobListing) :
  Permutation (insert_desc j l) (j :: l).
Proof.
  induction l as [|k l IH]; cbn [insert_desc]; [reflexivity|].
  destruct (Qle_bool _ _); [reflexivity|].
  rewrite IH. apply perm_swap.
Qed.

Lemma sort_desc_perm (l : list JobListing) : Permutation (sort_desc l) l.
Proof.
  induction l as [|j l IH]; cbn [sort_desc fold_right]; [reflexivity|].
  fold (sort_desc l). rewrite insert_desc_perm. constructor. exact IH.
Qed.

Lemma insert_desc_sorted (j : JobListing) (l : list JobListing) :
  StronglySorted score_ge l -> StronglySorted score_ge (insert_desc j l).
Proof.
  induction l as [|k l IH]; cbn [insert_desc]; intros Hs.
  - repeat constructor.
  - apply StronglySorted_inv in Hs as [Hl Hk].
    destruct (Qle_bool (relevance_score k) (relevance_score j)) eqn:E.
    + apply Qle_bool_iff in E. constructor; [constructor; auto|].
      constructor; [exact E|].
      eapply List.Forall_impl; [|exact Hk]. unfold score_ge. intros a Ha.
      eapply Qle_trans; eauto.
    + assert (Hlt : (relevance_score j < relevance_score k)%Q).
      { apply Qnot_le_lt. intros H. apply Qle_bool_iff in H. congruence. }
      constructor; [apply IH; exact Hl|].
      eapply Permutation_Forall; [symmetry; apply insert_desc_perm|].
      constructor; [apply Qlt_le_weak; exact Hlt | exact Hk].
Qed.

Lemma sort_desc_sorted (l : list JobListing) :
  StronglySorted score_ge (sort_desc l).
Proof.
  induction l as [|j l IH]; cbn [sort_desc fold_right]; [constructor|].
  apply insert_desc_sorted. exact IH.
Qed.




Lemma filter_perm {A} (f : A -> bool) (l l' : list A) :
  Permutation l l' -> Permutation (List.filter f l) (List.filter f l').
Proof.
  induction 1 as [|a l l' _ IH|a b l|l1 l2 l3 _ IH1 _ IH2]; cbn [List.filter].
  - constructor.
  - destruct (f a); [constructor|]; exact IH.
  - destruct (f a), (f b); try reflexivity. apply perm_swap.
  - etransitivity; eauto.
Qed.










(** ** The scoring loop and the disqualification filter *)

Section ScoringFacts.

Variable cosine_similarity : list Q -> list Q -> option Q.
Variable embeddings_model : option Embeddings.

Local Abbreviation score := (score_job cosine_similarity embeddings_model).

Lemma scoring_loop_acc (jobs acc : list JobListing) :
  fold_left (scoring_step cosine_similarity embeddings_model) jobs acc =
  (acc ++ List.map score
            (List.filter (fun j => negb (_is_disqualified j)) jobs))%list.
Proof.
  revert acc. induction jobs as [|j jobs IH]; intros acc; cbn [fold_left].
  - cbn. rewrite app_nil_r. reflexivity.
  - rewrite IH. unfold scoring_step. cbn [List.filter].
    destruct (_is_disqualified j); cbn [negb List.map]; [reflexivity|].
    rewrite <- app_assoc. reflexivity.
Qed.

(** The loop scores the postings that pass the filter, in input order. *)
Lemma scoring_loop_eq (jobs : list JobListing) :
  scoring_loop cosine_similarity embeddings_model jobs =
  List.map score (List.filter (fun j => negb (_is_disqualified j)) jobs).
Proof. unfold scoring_loop. rewrite scoring_loop_acc. reflexivity. Qed.

Lemma _is_disqualified_set_score (job : JobListing) (v : Q) :
  _is_disqualified (set_relevance_score job v) = _is_disqualified job.
Proof. reflexivity. Qed.

Lemma scoring_loop_in (jobs : list JobListing) (q : JobListing) :
  In q (scoring_loop cosine_similarity embeddings_model jobs) <->
  exists j, In j jobs /\ _is_disqualified j = false /\ q = score j.
Proof.
  rewrite scoring_loop_eq, in_map_iff. split.
  - intros (j & <- & Hj). apply filter_In in Hj as [Hin Hd].
    exists j. rewrite negb_true_iff in Hd. auto.
  - intros (j & Hin & Hd & ->). exists j. split; auto.
    apply filter_In. rewrite Hd. auto.
Qed.

Lemma scored_jobs_in (state : AgentState) (q : JobListing) :
  In q (scored_jobs (relevance_scoring_node cosine_similarity embeddings_model state)) <->
  exists j, In j (filtered_jobs state) /\ _is_disqualified j = false /\ q = score j.
Proof.
  cbn [relevance_scoring_node scored_jobs]. rewrite <- scoring_loop_in.
  split; apply Permutation_in; [|symmetry]; apply sort_desc_perm.
Qed.

Lemma selected_in_scored (state : AgentState) (q : JobListing) :
  In q (selected_jobs (relevance_scoring_node cosine_similarity embeddings_model state)) ->
  In q (scored_jobs (relevance_scoring_node cosine_similarity embeddings_model state)).
Proof.
  cbn [relevance_scoring_node selected_jobs scored_jobs].
  intros H. apply filter_In in H. tauto.
Qed.

Lemma _is_disqualified_iff (job : JobListing) :
  _is_disqualified job = true <->
  exists kw, In kw BLACKLIST_KEYWORDS /\
             Substring (lower kw) (lower (blacklist_text job)).
Proof.
  unfold _is_disqualified, blacklist_text. rewrite !str_or_empty.
  rewrite existsb_exists.
  split; intros (kw & Hin & H); exists kw; split; auto; apply contains_iff; auto.
Qed.

Lemma blacklist_text_fields (kw : string) (job : JobListing) :
  Substring kw (lower (title job)) \/
  Substring kw (lower (description job)) \/
  Substring kw (lower (experience_required job)) ->
  Substring kw (lower (blacklist_text job)).
Proof.
  unfold blacklist_text. rewrite !lower_app.
  intros [H | [H | H]].
  - apply Substring_app_l. exact H.
  - apply Substring_app_r, Substring_app_r, Substring_app_l. exact H.
  - do 4 apply Substring_app_r. exact H.
Qed.

(** C2. A posting with a blacklist keyword occurring, case-insensitively,
    in its title, its description or its experience text, or in the three
    joined by spaces as the filter joins them, appears neither in the scored
    nor in the selected output, whatever score it is given. *)
Theorem disqualified_never_scored (state : AgentState) (p : JobListing) (v : Q) :
  (exists kw, In kw BLACKLIST_KEYWORDS /\
     (Substring (lower kw) (lower (blacklist_text p)) \/
      Substring (lower kw) (lower (title p)) \/
      Substring (lower kw) (lower (description p)) \/
      Substring (lower kw) (lower (experience_required p)))) ->
  let out := relevance_scoring_node cosine_similarity embeddings_model state in
  ~ In p (scored_jobs out) /\ ~ In (set_relevance_score p v) (scored_jobs out) /\
  ~ In p (selected_jobs out) /\ ~ In (set_relevance_score p v) (selected_jobs out).
Proof.
  intros Hkw out.
  assert (Hdq : _is_disqualified p = true).
  { apply _is_disqualified_iff. destruct Hkw as (kw & Hin & [H | H]);
      exists kw; split; auto using blacklist_text_fields. }
  assert (Hno : forall q, _is_disqualified q = true -> ~ In q (scored_jobs out)).
  { intros q Hq Hin. apply scored_jobs_in in Hin as (j & _ & Hj & ->).
    unfold score_job in Hq. rewrite _is_disqualified_set_score in Hq.
    congruence. }
  assert (Hv : _is_disqualified (set_relevance_score p v) = true)
    by (rewrite _is_disqualified_set_score; exact Hdq).
  repeat split; try (apply Hno; assumption);
    intros Hin; apply selected_in_scored in Hin; revert Hin; apply Hno; assumption.
Qed.

End ScoringFacts.

Lemma disqualified_never_scored_witness :
  ~ In (set_relevance_score senior_job 79)
       (scored_jobs (relevance_scoring_node unit_cosine None
                       (initial_state [acme_job; senior_job]))).
Proof.
  apply (disqualified_never_scored unit_cosine None
           (initial_state [acme_job; senior_job]) senior_job 79).
  exists "senior". split; [simpl; tauto|]. right; left.
  exists "", " ml engineer". reflexivity.
Defined.

(** ** The four deterministic components *)

Lemma skill_present_iff (skill : string) :
  skill_present skill = true <->
  exists c, In c ALL_SKILLS /\ lower c = lower skill.
Proof.
  unfold skill_present. rewrite existsb_exists.
  split; intros (c & Hin & H); exists c; split; auto; apply String.eqb_eq; auto.
Qed.

Lemma str_in_lower_present (skill : string) :
  str_in (lower skill) (List.map lower ALL_SKILLS) = skill_present skill.
Proof.
  apply eq_true_iff_eq. rewrite str_in_iff, skill_present_iff, in_map_iff.
  split; intros (c & H1 & H2); exists c; auto.
Qed.

Lemma present_fraction_range (job : JobListing) :
  required_skills job <> [] ->
  (0 <= present_fraction job)%Q /\ (present_fraction job <= 1)%Q.
Proof.
  intros Hne. unfold present_fraction.
  pose proof (count_if_bounds skill_present (required_skills job)) as [H0 H1].
  set (m := count_if skill_present (required_skills job)) in *.
  set (n := Z.of_nat (List.length (required_skills job))) in *.
  assert (Hn : (0 < n)%Z).
  { subst n. destruct (required_skills job); [congruence | cbn; lia]. }
  assert (Hnq : (0 < inject_Z n)%Q).
  { change 0%Q with (inject_Z 0). rewrite <- Zlt_Qlt. exact Hn. }
  split.
  - apply Qle_shift_div_l; [exact Hnq|]. rewrite Qmult_0_l.
    change 0%Q with (inject_Z 0). rewrite <- Zle_Qle. exact H0.
  - apply Qle_shift_div_r; [exact Hnq|]. rewrite Qmult_1_l.
    rewrite <- Zle_Qle. exact H1.
Qed.

Lemma _skill_overlap_score_eq (job : JobListing) :
  required_skills job <> [] ->
  _skill_overlap_score job = py_round (present_fraction job * 40) 2.
Proof.
  intros Hne. unfold _skill_overlap_score, present_fraction, count_if.
  destruct (required_skills job) as [|s l] eqn:E; [congruence|].
  rewrite (List.filter_ext _ _ str_in_lower_present). reflexivity.
Qed.

Lemma _skill_overlap_score_range (job : JobListing) :
  (0 <= _skill_overlap_score job)%Q /\ (_skill_overlap_score job <= 40)%Q.
Proof.
  destruct (required_skills job) as [|s l] eqn:E.
  - unfold _skill_overlap_score. rewrite E. split; discriminate.
  - rewrite _skill_overlap_score_eq by congruence.
    destruct (present_fraction_range job) as [H0 H1]; [congruence|].
    apply (py_round_bounds _ 0 40); change (inject_Z 0) with 0%Q;
      change (inject_Z 40) with 40%Q; lra.
Qed.

Lemma _experience_match_score_range (job : JobListing) :
  (0 <= _experience_match_score job)%Q /\ (_experience_match_score job <= 25)%Q.
Proof.
  unfold _experience_match_score.
  repeat match goal with |- context [if ?b then _ else _] => destruct b end;
    split; discriminate.
Qed.

Lemma _tech_stack_score_range (job : JobListing) :
  (0 <= _tech_stack_score job)%Q /\ (_tech_stack_score job <= 25)%Q.
Proof.
  unfold _tech_stack_score.
  match goal with |- context [count_if ?p ?l] =>
    pose proof (count_if_bounds p l) as [H0 _]; set (m := count_if p l) in * end.
  change 0%Q with (inject_Z 0). change 25%Q with (inject_Z 25).
  rewrite <- !Zle_Qle. lia.
Qed.

Lemma _company_preference_score_range (job : JobListing) :
  (0 <= _company_preference_score job)%Q /\ (_company_preference_score job <= 10)%Q.
Proof.
  unfold _company_preference_score.
  match goal with |- context [count_if ?p ?l] =>
    pose proof (count_if_bounds p l) as [H0 _]; set (m := count_if p l) in * end.
  change 0%Q with (inject_Z 0). change 10%Q with (inject_Z 10).
  rewrite <- !Zle_Qle. lia.
Qed.

(** C4. Each component is bounded on its own: skill overlap in [0, 40],
    experience match in [0, 25], tech-stack alignment in [0, 25], company
    preference in [0, 10]; hence their sum, the score before the semantic
    blend, is at most 100. *)
Theorem component_bounds (job : JobListing) :
  ((0 <= _skill_overlap_score job)%Q /\ (_skill_overlap_score job <= 40)%Q) /\
  ((0 <= _experience_match_score job)%Q /\ (_experience_match_score job <= 25)%Q) /\
  ((0 <= _tech_stack_score job)%Q /\ (_tech_stack_score job <= 25)%Q) /\
  ((0 <= _company_preference_score job)%Q /\ (_company_preference_score job <= 10)%Q) /\
  (base_score job <= 100)%Q.
Proof.
  pose proof (_skill_overlap_score_range job) as H1.
  pose proof (_experience_match_score_range job) as H2.
  pose proof (_tech_stack_score_range job) as H3.
  pose proof (_company_preference_score_range job) as H4.
  repeat split; try tauto. unfold base_score. lra.
Qed.

Lemma Mentions_iff (kws : list string) (text : string) :
  any_in kws text = true <-> Mentions kws text.
Proof. apply any_in_iff. Qed.


Lemma experience_combined (job : JobListing) :
  lower (str_or (experience_required job) "") ++ " " ++
  lower (str_or (description job) "") = experience_text job.
Proof.
  unfold experience_text. rewrite !str_or_empty, !lower_app. reflexivity.
Qed.

(** The first tier: an entry-level keyword gives the full 25 points. *)
Lemma _experience_match_score_entry (job : JobListing) :
  Mentions ["intern"; "fresher"; "0-1"; "entry"; "graduate"; "trainee"]
           (experience_text job) ->
  _experience_match_score job = 25%Q.
Proof.
  intros H. unfold _experience_match_score. cbv zeta.
  rewrite experience_combined. apply Mentions_iff in H. rewrite H. reflexivity.
Qed.



(** C7, as amended. A posting without required skills gets exactly 20; a
    posting with required skills gets the fraction of them that match a
    candidate skill up to case, scaled to 40 and rounded to two decimals,
    hence within 0.005 of the scaled fraction. *)
Theorem skill_overlap_rounded (job : JobListing) :
  (required_skills job = [] -> _skill_overlap_score job = 20%Q) /\
  (required_skills job <> [] ->
   _skill_overlap_score job = py_round (present_fraction job * 40) 2 /\
   (- (1 # 200) <= _skill_overlap_score job - present_fraction job * 40)%Q /\
   (_skill_overlap_score job - present_fraction job * 40 <= 1 # 200)%Q).
Proof.
  split.
  - intros E. unfold _skill_overlap_score. rewrite E. reflexivity.
  - intros Hne. rewrite _skill_overlap_score_eq by exact Hne.
    split; [reflexivity | apply py_round_2_error].
Qed.

Lemma skill_overlap_rounded_witness :
  _skill_overlap_score legacy_job = py_round (present_fraction legacy_job * 40) 2 /\
  (- (1 # 200) <= _skill_overlap_score legacy_job - present_fraction legacy_job * 40)%Q /\
  (_skill_overlap_score legacy_job - present_fraction legacy_job * 40 <= 1 # 200)%Q.
Proof.
  apply (skill_overlap_rounded legacy_job). discriminate.
Defined.

(** C7, as stated, fails: with one of three required skills present the
    component is 13.33, not 40/3. *)
Lemma skill_overlap_not_exact :
  required_skills legacy_job <> [] /\
  (present_fraction legacy_job == 1 # 3)%Q /\
  (_skill_overlap_score legacy_job == 1333 # 100)%Q /\
  ~ (_skill_overlap_score legacy_job == present_fraction legacy_job * 40)%Q.
Proof.
  split; [discriminate|]. split; [reflexivity|]. split; [reflexivity|].
  intros H. vm_compute in H. discriminate.
Qed.

(** ** The semantic bonus and the final score *)

Section FinalScore.

Variable cosine_similarity : list Q -> list Q -> option Q.

Local Abbreviation score_with := (score_job cosine_similarity).
Local Abbreviation final_with := (final_score cosine_similarity).
Local Abbreviation bonus_with := (semantic_bonus cosine_similarity).

Lemma relevance_score_score_job (m : option Embeddings) (job : JobListing) :
  relevance_score (score_with m job) = py_round (final_with m job) 1.
Proof. reflexivity. Qed.

Lemma semantic_try_None (job : JobListing) (m : Embeddings) :
  semantic_try cosine_similarity job m = None <->
  invocation_raises cosine_similarity m job.
Proof.
  unfold semantic_try, invocation_raises.
  destruct (embed_query m candidate_profile) as [a|]; cbn; [|tauto].
  destruct (embed_query m (job_text job)) as [b|]; cbn.
  - destruct (cosine_similarity a b) eqn:E; cbn.
    + split; [discriminate|].
      intros [H | [H | (a' & b' & Ha & Hb & H)]]; try discriminate. congruence.
    + split; auto. intros _. right; right. eauto.
  - split; auto.
Qed.


(** A raising invocation leaves the bonus at its default [5.0]. *)
Lemma score_when_invocation_raises (m : Embeddings) (job : JobListing) :
  invocation_raises cosine_similarity m job ->
  bonus_with (Some m) job = 5%Q /\
  relevance_score (score_with (Some m) job) =
  py_round (Qmin (base_score job + (1 # 2)) 100) 1.
Proof.
  intros H. apply semantic_try_None in H.
  assert (Hb : bonus_with (Some m) job = 5%Q).
  { unfold semantic_bonus, _semantic_similarity. rewrite H. reflexivity. }
  split; [exact Hb|]. rewrite relevance_score_score_job.
  apply py_round_comp. unfold final_score. rewrite Hb.
  apply Q.min_compat; [ring | reflexivity].
Qed.

(** C3, as amended. When no embedding collaborator was loaded the semantic
    bonus is 0.0, the score before rounding is min(100, base), and the
    recorded score is that number rounded to one decimal; when a
    collaborator is loaded and a call in its invocation raises, the bonus is
    5.0, the score before rounding is min(100, base + 0.5), and the recorded
    score is that number rounded to one decimal.  Rounded to one decimal
    means a tenth at most 0.05 away: which of the two tenths a half-way sum
    goes to is left open, as binary floating point decides it. *)
Theorem semantic_bonus_defaults (job : JobListing) :
  (bonus_with None job = 0%Q /\
   (final_with None job == Qmin (base_score job) 100)%Q /\
   rounds_to_tenth (Qmin (base_score job) 100)
     (relevance_score (score_with None job))) /\
  (forall m, invocation_raises cosine_similarity m job ->
     bonus_with (Some m) job = 5%Q /\
     (final_with (Some m) job == Qmin (base_score job + (1 # 2)) 100)%Q /\
     rounds_to_tenth (Qmin (base_score job + (1 # 2)) 100)
       (relevance_score (score_with (Some m) job))).
Proof.
  split.
  - split; [reflexivity|].
    assert (E : (final_with None job == Qmin (base_score job) 100)%Q).
    { unfold final_score. cbn [semantic_bonus].
      apply Q.min_compat; [ring | reflexivity]. }
    split; [exact E|].
    apply (rounds_to_tenth_comp _ _ _ E). rewrite relevance_score_score_job.
    apply py_round_1_tenth.
  - intros m H.
    destruct (score_when_invocation_raises m job H) as [Hb _].
    assert (E : (final_with (Some m) job == Qmin (base_score job + (1 # 2)) 100)%Q).
    { unfold final_score. rewrite Hb. apply Q.min_compat; [ring | reflexivity]. }
    split; [exact Hb|]. split; [exact E|].
    apply (rounds_to_tenth_comp _ _ _ E). rewrite relevance_score_score_job.
    apply py_round_1_tenth.
Qed.

(** The clamp keeps every score at or below 100. *)
Lemma relevance_score_le_100 (m : option Embeddings) (job : JobListing) :
  (relevance_score (score_with m job) <= 100)%Q.
Proof.
  rewrite relevance_score_score_job.
  apply (py_round_bounds _ (Qfloor (final_with m job)) 100).
  - apply Qfloor_le.
  - apply Q.le_min_r.
Qed.

(** The score is non-negative as long as the semantic bonus is. *)
Lemma relevance_score_nonneg (m : option Embeddings) (job : JobListing) :
  (0 <= bonus_with m job)%Q ->
  (0 <= relevance_score (score_with m job))%Q.
Proof.
  intros Hb. rewrite relevance_score_score_job.
  apply (py_round_bounds _ 0 100).
  - unfold final_score.
    pose proof (_skill_overlap_score_range job) as [? _].
    pose proof (_experience_match_score_range job) as [? _].
    pose proof (_tech_stack_score_range job) as [? _].
    pose proof (_company_preference_score_range job) as [? _].
    apply Q.min_glb; [|discriminate].
    unfold base_score. change (inject_Z 0) with 0%Q. nra.
  - apply Q.le_min_r.
Qed.

End FinalScore.

Lemma semantic_bonus_defaults_witness :
  invocation_raises unit_cosine failing_embeddings halfway_job /\
  (base_score halfway_job == 3955 # 100)%Q /\
  semantic_bonus unit_cosine (Some failing_embeddings) halfway_job = 5%Q /\
  rounds_to_tenth (Qmin (base_score halfway_job + (1 # 2)) 100)
    (relevance_score (score_job unit_cosine (Some failing_embeddings) halfway_job)) /\
  rounds_to_tenth (Qmin (base_score halfway_job) 100)
    (relevance_score (score_job unit_cosine None halfway_job)).
Proof.
  assert (H : invocation_raises unit_cosine failing_embeddings halfway_job)
    by (left; reflexivity).
  split; [exact H|]. split; [reflexivity|].
  pose proof (semantic_bonus_defaults unit_cosine halfway_job) as [(_ & _ & H0) H5].
  destruct (H5 failing_embeddings H) as (Hb & _ & Hr).
  split; [exact Hb|]. split; [exact Hr | exact H0].
Defined.

(** C3, as stated, fails: with no collaborator the scenario posting gets no
    bonus at all and scores its base, 76.0, not 76.5; and when the invocation
    raises, a base of 33.33 gives 33.8 after rounding, not 33.83. *)
Lemma semantic_bonus_not_always_5 :
  semantic_bonus unit_cosine None acme_job <> 5%Q /\
  ~ (relevance_score (score_job unit_cosine None acme_job) ==
     base_score acme_job + (1 # 2))%Q /\
  invocation_raises unit_cosine failing_embeddings legacy_job /\
  ~ (relevance_score (score_job unit_cosine (Some failing_embeddings) legacy_job) ==
     base_score legacy_job + (1 # 2))%Q.
Proof.
  split; [discriminate|]. split; [intros H; vm_compute in H; discriminate|].
  split; [left; reflexivity|]. intros H; vm_compute in H; discriminate.
Qed.

(** C5, on the failing input. A posting whose four components are all zero,
    scored with an embedding model that returns a vector opposite to the
    candidate's, is not disqualified and is scored -1.0, below 0. *)
Theorem score_below_zero :
  _is_disqualified cobol_job = false /\
  base_score cobol_job == 0 /\
  semantic_bonus unit_cosine (Some opposed_embeddings) cobol_job == - (10) /\
  scored_jobs (relevance_scoring_node unit_cosine (Some opposed_embeddings)
                 (initial_state [cobol_job])) =
  [set_relevance_score cobol_job (-10 # 10)] /\
  ~ (0 <= relevance_score
            (score_job unit_cosine (Some opposed_embeddings) cobol_job))%Q.
Proof.
  split; [reflexivity|]. split; [reflexivity|]. split; [reflexivity|].
  split; [reflexivity|]. intros H; vm_compute in H. apply H; reflexivity.
Qed.

(** ** Work mode and start-date flexibility do not reach the score *)

Section Eligibility.

Variable cosine_similarity : list Q -> list Q -> option Q.
Variable embeddings_model : option Embeddings.

Local Abbreviation scored_with := (score_job cosine_similarity embeddings_model).
Local Abbreviation node := (relevance_scoring_node cosine_similarity embeddings_model).

(** Rewrite with every field equation of [same_except_eligibility]. *)
Ltac same_fields H :=
  destruct H as (Hid & Hti & Hco & Hlo & Hur & Hde & Hre & Hpr & Hpo & Hex &
                 Hsa & Hso & Hrs);
  rewrite ?Hid, ?Hti, ?Hco, ?Hlo, ?Hur, ?Hde, ?Hre, ?Hpr, ?Hpo, ?Hex, ?Hsa,
          ?Hso, ?Hrs.

Lemma same_except_disqualified (p q : JobListing) :
  same_except_eligibility p q -> _is_disqualified p = _is_disqualified q.
Proof. intros H. unfold _is_disqualified. same_fields H. reflexivity. Qed.

Lemma same_except_base_score (p q : JobListing) :
  same_except_eligibility p q -> base_score p = base_score q.
Proof.
  intros H.
  unfold base_score, _skill_overlap_score, _experience_match_score,
    _tech_stack_score, _company_preference_score.
  same_fields H. reflexivity.
Qed.

Lemma same_except_semantic_bonus (p q : JobListing) :
  same_except_eligibility p q ->
  semantic_bonus cosine_similarity embeddings_model p =
  semantic_bonus cosine_similarity embeddings_model q.
Proof.
  intros H.
  unfold semantic_bonus, _semantic_similarity, semantic_try, job_text.
  same_fields H. reflexivity.
Qed.

Lemma same_except_score_job (p q : JobListing) :
  same_except_eligibility p q ->
  same_except_eligibility (scored_with p) (scored_with q).
Proof.
  intros H.
  assert (Hs : relevance_score (scored_with p) = relevance_score (scored_with q)).
  { cbn [score_job set_relevance_score relevance_score]. unfold final_score.
    rewrite (same_except_base_score p q H), (same_except_semantic_bonus p q H).
    reflexivity. }
  unfold same_except_eligibility in *.
  cbn [score_job set_relevance_score job_id title company location job_url
       description required_skills preferred_skills posted_date
       experience_required salary_range source] in *.
  cbn [relevance_score score_job set_relevance_score] in Hs.
  cbn [relevance_score]. tauto.
Qed.

Lemma same_except_insert_desc (j j' : JobListing) (l l' : list JobListing) :
  same_except_eligibility j j' -> Forall2 same_except_eligibility l l' ->
  Forall2 same_except_eligibility (insert_desc j l) (insert_desc j' l').
Proof.
  intros Hj Hl. induction Hl as [|k k' l l' Hk Hl IH]; cbn [insert_desc].
  - constructor; [exact Hj | constructor].
  - assert (Ek : relevance_score k = relevance_score k') by apply Hk.
    assert (Ej : relevance_score j = relevance_score j') by apply Hj.
    rewrite Ek, Ej.
    destruct (Qle_bool (relevance_score k') (relevance_score j')).
    + constructor; [exact Hj|]. constructor; assumption.
    + constructor; assumption.
Qed.

Lemma same_except_sort_desc (l l' : list JobListing) :
  Forall2 same_except_eligibility l l' ->
  Forall2 same_except_eligibility (sort_desc l) (sort_desc l').
Proof.
  induction 1 as [|j j' l l' Hj Hl IH]; cbn [sort_desc fold_right].
  - constructor.
  - apply same_except_insert_desc; assumption.
Qed.

Lemma same_except_filter (f : JobListing -> bool) (l l' : list JobListing) :
  (forall a b, same_except_eligibility a b -> f a = f b) ->
  Forall2 same_except_eligibility l l' ->
  Forall2 same_except_eligibility (List.filter f l) (List.filter f l').
Proof.
  intros Hf. induction 1 as [|j j' l l' Hj Hl IH]; cbn [List.filter].
  - constructor.
  - rewrite (Hf j j' Hj). destruct (f j'); [constructor|]; assumption.
Qed.

Lemma same_except_scoring_loop (l l' : list JobListing) :
  Forall2 same_except_eligibility l l' ->
  Forall2 same_except_eligibility
    (scoring_loop cosine_similarity embeddings_model l)
    (scoring_loop cosine_similarity embeddings_model l').
Proof.
  intros H. rewrite !scoring_loop_eq.
  apply (same_except_filter (fun j => negb (_is_disqualified j))) in H.
  - induction H; cbn [List.map]; constructor; auto using same_except_score_job.
  - intros a b Hab. rewrite (same_except_disqualified a b Hab). reflexivity.
Qed.

(** C10. Two postings that differ only in work mode and in the
    start-date-flexible flag are disqualified alike and receive the same
    score; and two runs whose inputs differ only in those fields produce
    scored and selected lists of the same length that agree, position by
    position, on every other field and on the score. *)
Theorem eligibility_fields_ignored :
  (forall p q, same_except_eligibility p q ->
     _is_disqualified p = _is_disqualified q /\
     relevance_score (scored_with p) = relevance_score (scored_with q)) /\
  (forall state state',
     Forall2 same_except_eligibility (filtered_jobs state) (filtered_jobs state') ->
     Forall2 same_except_eligibility
       (scored_jobs (node state)) (scored_jobs (node state')) /\
     Forall2 same_except_eligibility
       (selected_jobs (node state)) (selected_jobs (node state'))).
Proof.
  split.
  - intros p q H. split; [apply same_except_disqualified; exact H|].
    apply (same_except_score_job p q H).
  - intros state state' H.
    assert (Hs : Forall2 same_except_eligibility
                   (scored_jobs (node state)) (scored_jobs (node state'))).
    { cbn [relevance_scoring_node scored_jobs].
      apply same_except_sort_desc, same_except_scoring_loop, H. }
    split; [exact Hs|].
    cbn [relevance_scoring_node selected_jobs scored_jobs] in *.
    apply same_except_filter; [|exact Hs].
    intros a b Hab. assert (E : relevance_score a = relevance_score b) by apply Hab.
    rewrite E. reflexivity.
Qed.

End Eligibility.

Lemma eligibility_fields_ignored_witness :
  work_mode acme_job <> work_mode acme_job_remote /\
  joining_date_flexible acme_job <> joining_date_flexible acme_job_remote /\
  Forall2 same_except_eligibility
    (selected_jobs (relevance_scoring_node unit_cosine (Some opposed_embeddings)
                      (initial_state [acme_job])))
    (selected_jobs (relevance_scoring_node unit_cosine (Some opposed_embeddings)
                      (initial_state [acme_job_remote]))).
Proof.
  split; [discriminate|]. split; [discriminate|].
  apply (eligibility_fields_ignored unit_cosine (Some opposed_embeddings)).
  cbn [initial_state filtered_jobs]. constructor; [|constructor].
  unfold same_except_eligibility. repeat split; reflexivity.
Defined.

(** ** The end-to-end scenario *)










(** ** Discovery: identifiers and de-duplication *)

Lemma first_seen_in (seen : gset string) (l : list Raw.Job) (k : Raw.Job) :
  In k (first_seen seen l) -> In k l /\ Raw.job_id k ∉ seen.
Proof.
  revert seen. induction l as [|j l IH]; intros seen; cbn [first_seen]; [tauto|].
  destruct (decide (Raw.job_id j ∈ seen)) as [Hin | Hnin].
  - intros H. destruct (IH _ H) as [H1 H2]. split; [right; exact H1 | exact H2].
  - intros [<- | H]; [split; [left; reflexivity | exact Hnin]|].
    destruct (IH _ H) as [H1 H2]. split; [right; exact H1 | set_solver].
Qed.

Lemma first_seen_NoDup (seen : gset string) (l : list Raw.Job) :
  List.NoDup (List.map Raw.job_id (first_seen seen l)).
Proof.
  revert seen. induction l as [|j l IH]; intros seen; cbn [first_seen].
  - constructor.
  - destruct (decide (Raw.job_id j ∈ seen)); [apply IH|].
    cbn [List.map]. constructor; [|apply IH].
    intros H. apply in_map_iff in H as (k & E & Hk).
    destruct (first_seen_in _ _ _ Hk) as [_ Hnew]. set_solver.
Qed.

Lemma first_seen_covers (seen : gset string) (l : list Raw.Job) (j : Raw.Job) :
  In j l -> Raw.job_id j ∉ seen ->
  In (Raw.job_id j) (List.map Raw.job_id (first_seen seen l)).
Proof.
  revert seen. induction l as [|i l IH]; intros seen; cbn [first_seen]; [tauto|].
  intros Hin Hnew.
  destruct (decide (Raw.job_id i ∈ seen)) as [Hi | Hi].
  - destruct Hin as [-> | Hin]; [contradiction|]. apply IH; assumption.
  - cbn [List.map]. destruct Hin as [-> | Hin]; [left; reflexivity|].
    destruct (decide (Raw.job_id j = Raw.job_id i)) as [E | NE];
      [left; symmetry; exact E|].
    right. apply IH; [exact Hin | set_solver].
Qed.

Lemma first_seen_first (seen : gset string) (l : list Raw.Job) (k : Raw.Job) :
  In k (first_seen seen l) -> first_with_id (Raw.job_id k) l = Some k.
Proof.
  unfold first_with_id.
  revert seen. induction l as [|j l IH]; intros seen; cbn [first_seen List.find];
    [intros []|].
  destruct (decide (Raw.job_id j ∈ seen)) as [Hj | Hj].
  - intros H. pose proof (first_seen_in _ _ _ H) as [_ Hk].
    destruct (String.eqb_spec (Raw.job_id j) (Raw.job_id k)) as [E | NE].
    + rewrite E in Hj. contradiction.
    + eapply IH; exact H.
  - intros [<- | H]; [rewrite String.eqb_refl; reflexivity|].
    pose proof (first_seen_in _ _ _ H) as [_ Hk].
    destruct (String.eqb_spec (Raw.job_id j) (Raw.job_id k)) as [E | NE].
    + set_solver.
    + eapply IH; exact H.
Qed.

Lemma collect_first_seen (seen : gset string) (out l : list Raw.Job) :
  snd (collect (seen, out) l) = (out ++ first_seen seen l)%list /\
  fst (collect (seen, out) l) = seen ∪ list_to_set (List.map Raw.job_id l).
Proof.
  unfold collect. revert seen out.
  induction l as [|j l IH]; intros seen out; cbn [fold_left first_seen List.map].
  - rewrite app_nil_r. split; [reflexivity | set_solver].
  - unfold add_new at 2 4.
    destruct (decide (Raw.job_id j ∈ seen)) as [Hj | Hj].
    + destruct (IH seen out) as [-> ->]. split; [reflexivity | set_solver].
    + destruct (IH ({[Raw.job_id j]} ∪ seen) (out ++ [j])%list) as [-> ->].
      rewrite <- app_assoc. split; [reflexivity | set_solver].
Qed.

Section DiscoveryFacts.

Variable md5_hexdigest : string -> string.
Variable internshala_cards indeed_cards wellfound_cards linkedin_cards :
  string -> list Card.
Variable extract_skills : string -> string -> string -> option Parsed.

Local Abbreviation job_id_of := (_job_id md5_hexdigest).
Local Abbreviation enrich := (enrich_job_description extract_skills).
Local Abbreviation stream :=
  (discovered md5_hexdigest internshala_cards indeed_cards wellfound_cards
     linkedin_cards).
Local Abbreviation found :=
  (discover md5_hexdigest internshala_cards indeed_cards wellfound_cards
     linkedin_cards).
Local Abbreviation node :=
  (job_discovery_node md5_hexdigest internshala_cards indeed_cards
     wellfound_cards linkedin_cards extract_skills).

Local Abbreviation derived_id := (has_derived_id md5_hexdigest).

Lemma collect_app (acc : gset string * list Raw.Job) (l l' : list Raw.Job) :
  collect (collect acc l) l' = collect acc (l ++ l')%list.
Proof. unfold collect. rewrite fold_left_app. reflexivity. Qed.

Lemma query_step_sources (acc : gset string * list Raw.Job) (query : string) :
  query_step md5_hexdigest internshala_cards indeed_cards wellfound_cards
    linkedin_cards acc query =
  collect acc (sources md5_hexdigest internshala_cards indeed_cards
                 wellfound_cards linkedin_cards query).
Proof.
  unfold query_step, sources.
  destruct (source_enabled "internshala"), (source_enabled "indeed"),
    (source_enabled "wellfound"), (source_enabled "linkedin");
    rewrite ?collect_app, ?app_nil_l, ?app_nil_r; reflexivity.
Qed.

Lemma fold_query_step (acc : gset string * list Raw.Job) (queries : list string) :
  fold_left (query_step md5_hexdigest internshala_cards indeed_cards
               wellfound_cards linkedin_cards) queries acc =
  collect acc (List.concat
                 (List.map (sources md5_hexdigest internshala_cards indeed_cards
                              wellfound_cards linkedin_cards) queries)).
Proof.
  revert acc. induction queries as [|q queries IH]; intros acc; [reflexivity|].
  cbn [fold_left List.map List.concat]. rewrite IH, query_step_sources.
  apply collect_app.
Qed.

(** The loop keeps, in order, the first posting of each identifier. *)
Lemma discover_first_seen (queries : list string) :
  snd (found queries) = first_seen ∅ (stream queries).
Proof.
  unfold discover, discovered. rewrite fold_query_step.
  destruct (collect_first_seen ∅ [] (List.concat
              (List.map (sources md5_hexdigest internshala_cards indeed_cards
                           wellfound_cards linkedin_cards) (firstn 6 queries))))
    as [-> _].
  reflexivity.
Qed.

Lemma stream_derived (queries : list string) (j : Raw.Job) :
  In j (stream queries) -> derived_id j.
Proof.
  unfold discovered. rewrite in_concat. intros (l & Hl & Hj).
  apply in_map_iff in Hl as (q & <- & _). unfold sources in Hj.
  rewrite !in_app_iff in Hj.
  assert (Hc : forall cards, In j (List.map (job_of_card md5_hexdigest) cards) ->
                             derived_id j).
  { intros cards H. apply in_map_iff in H as (c & <- & _). reflexivity. }
  destruct (source_enabled "internshala"), (source_enabled "indeed"),
    (source_enabled "wellfound"), (source_enabled "linkedin");
    cbn [In] in Hj; intuition eauto.
Qed.

Lemma enrich_keeps_identity (j : Raw.Job) :
  Raw.job_id (enrich j) = Raw.job_id j /\
  Raw.title (enrich j) = Raw.title j /\
  Raw.company (enrich j) = Raw.company j.
Proof.
  unfold enrich_job_description.
  destruct (len (Raw.description j) <? 50)%nat; [auto|].
  destruct (extract_skills _ _ _); auto.
Qed.

(** The dictionaries in [raw_jobs] after enrichment in place. *)
Lemma raw_jobs_in (state : AgentState) (k : Raw.Job) :
  In k (raw_jobs (node state)) ->
  exists k0, In k0 (snd (found (default SEARCH_QUERIES (search_queries state)))) /\
             (k = k0 \/ k = enrich k0).
Proof.
  cbn [job_discovery_node raw_jobs]. rewrite in_app_iff.
  intros [H | H].
  - apply in_map_iff in H as (k0 & <- & H). exists k0. split; [|right; reflexivity].
    rewrite <- (firstn_skipn 40). apply in_or_app. left. exact H.
  - exists k. split; [|left; reflexivity].
    rewrite <- (firstn_skipn 40). apply in_or_app. right. exact H.
Qed.

Lemma raw_jobs_ids (state : AgentState) :
  List.map Raw.job_id (raw_jobs (node state)) =
  List.map Raw.job_id
    (snd (found (default SEARCH_QUERIES (search_queries state)))).
Proof.
  cbn [job_discovery_node raw_jobs].
  rewrite List.map_app, List.map_map.
  rewrite (List.map_ext _ Raw.job_id (fun j => proj1 (enrich_keeps_identity j))).
  rewrite <- List.map_app, firstn_skipn. reflexivity.
Qed.

(** C9. The identifier is a function of title and company alone; postings in
    the raw output with the same title and company have the same identifier;
    no two postings of the raw output share an identifier; every discovered
    identifier is kept; and the posting kept for an identifier is the first
    one discovered with it (as enriched in place). *)
Theorem discovery_deduplicates (state : AgentState) :
  let queries := default SEARCH_QUERIES (search_queries state) in
  let out := raw_jobs (node state) in
  (forall t c t' c', t = t' -> c = c' -> job_id_of t c = job_id_of t' c') /\
  (forall a b, In a out -> In b out ->
     Raw.title a = Raw.title b -> Raw.company a = Raw.company b ->
     Raw.job_id a = Raw.job_id b) /\
  List.NoDup (List.map Raw.job_id out) /\
  (forall j, In j (stream queries) ->
     In (Raw.job_id j) (List.map Raw.job_id out)) /\
  (forall k, In k out ->
     exists k0, first_with_id (Raw.job_id k) (stream queries) = Some k0 /\
                (k = k0 \/ k = enrich k0)).
Proof.
  intros queries out.
  assert (Hkept : forall k, In k out ->
            exists k0, In k0 (first_seen ∅ (stream queries)) /\
                       (k = k0 \/ k = enrich k0)).
  { intros k Hk. apply raw_jobs_in in Hk as (k0 & H0 & Hk).
    fold queries in H0. rewrite discover_first_seen in H0. eauto. }
  assert (Hder : forall k, In k out -> derived_id k).
  { intros k Hk. destruct (Hkept k Hk) as (k0 & H0 & E).
    apply first_seen_in in H0 as [H0 _]. apply stream_derived in H0.
    destruct E as [-> | ->]; [exact H0|].
    unfold has_derived_id in *.
    destruct (enrich_keeps_identity k0) as (-> & -> & ->). exact H0. }
  split; [intros; subst; reflexivity|].
  split.
  { intros a b Ha Hb Ht Hc. rewrite (Hder a Ha), (Hder b Hb), Ht, Hc. reflexivity. }
  split.
  { unfold out. rewrite raw_jobs_ids. fold queries.
    rewrite discover_first_seen. apply first_seen_NoDup. }
  split.
  { intros j Hj. unfold out. rewrite raw_jobs_ids. fold queries.
    rewrite discover_first_seen. apply first_seen_covers; [exact Hj | set_solver]. }
  intros k Hk. destruct (Hkept k Hk) as (k0 & H0 & E). exists k0. split; [|exact E].
  apply first_seen_first in H0.
  destruct E as [-> | ->]; [exact H0|].
  destruct (enrich_keeps_identity k0) as (-> & _). exact H0.
Qed.

End DiscoveryFacts.

Example sample_discovery_raw_jobs :
  List.map (fun j => (Raw.title j, Raw.source j)) (raw_jobs sample_discovery) =
  [("ML Intern", "internshala"); ("NLP Intern", "internshala");
   ("GenAI Intern", "linkedin")].
Proof. vm_compute. reflexivity. Qed.

Lemma discovery_deduplicates_witness :
  List.NoDup (List.map Raw.job_id (raw_jobs sample_discovery)).
Proof.
  exact (proj1 (proj2 (proj2
    (discovery_deduplicates sample_digest sample_internshala no_cards no_cards
       sample_linkedin no_reply
       {| search_queries := Some ["ML Intern"]; raw_jobs := [];
          filtered_jobs := []; scored_jobs := []; selected_jobs := [] |})))).
Defined.

(** * Further properties of the scoring node *)

(** ** Shape of the outputs *)

Lemma at_least_below (threshold : Q) (l : list JobListing) :
  (forall j, In j l -> (relevance_score j < threshold)%Q) ->
  at_least threshold l = [].
Proof.
  intros H. induction l as [|a l IH]; [reflexivity|]. cbn [at_least List.filter].
  destruct (Qle_bool threshold (relevance_score a)) eqn:E.
  - apply Qle_bool_iff in E. specialize (H a (or_introl eq_refl)). lra.
  - apply IH. intros j Hj. apply H. right. exact Hj.
Qed.

(** On a list sorted descending, the threshold filter keeps a prefix. *)
Lemma at_least_sorted_prefix (threshold : Q) (l : list JobListing) :
  StronglySorted score_ge l ->
  at_least threshold l = firstn (List.length (at_least threshold l)) l /\
  forall j, In j (skipn (List.length (at_least threshold l)) l) ->
            (relevance_score j < threshold)%Q.
Proof.
  induction 1 as [|a l Hs IH Ha]; [split; [reflexivity | intros j []]|].
  cbn [at_least List.filter].
  destruct (Qle_bool threshold (relevance_score a)) eqn:E.
  - fold (at_least threshold l). destruct IH as [IH1 IH2].
    cbn [List.length firstn skipn]. split; [f_equal; exact IH1 | exact IH2].
  - assert (Hlt : (relevance_score a < threshold)%Q).
    { apply Qnot_le_lt. intros H. apply Qle_bool_iff in H. congruence. }
    assert (Hall : forall j, In j l -> (relevance_score j < threshold)%Q).
    { intros j Hj. rewrite List.Forall_forall in Ha. specialize (Ha j Hj).
      unfold score_ge in Ha. lra. }
    fold (at_least threshold l). rewrite (at_least_below _ _ Hall).
    cbn [List.length firstn skipn]. split; [reflexivity|].
    intros j [<- | Hj]; auto.
Qed.

Section NodeShape.

Variable cosine_similarity : list Q -> list Q -> option Q.
Variable embeddings_model : option Embeddings.

Local Abbreviation node := (relevance_scoring_node cosine_similarity embeddings_model).
Local Abbreviation rescore := (score_job cosine_similarity embeddings_model).

Local Abbreviation scored_in_place :=
  (score_in_place cosine_similarity embeddings_model).

(** X1. The selected postings are the first postings of the scored list:
    [selected_jobs] is the prefix of [scored_jobs] of its own length, and
    every scored posting after that prefix is below the threshold. *)
Theorem selected_is_prefix_of_scored (state : AgentState) :
  let out := node state in
  let k := List.length (selected_jobs out) in
  selected_jobs out = firstn k (scored_jobs out) /\
  (forall j, In j (skipn k (scored_jobs out)) ->
             (relevance_score j < MIN_RELEVANCE_SCORE)%Q).
Proof.
  cbn zeta. cbn [relevance_scoring_node selected_jobs scored_jobs].
  apply (at_least_sorted_prefix MIN_RELEVANCE_SCORE), sort_desc_sorted.
Qed.

Lemma filtered_jobs_node (state : AgentState) :
  filtered_jobs (node state) = List.map scored_in_place (filtered_jobs state).
Proof. reflexivity. Qed.

Lemma filter_map_scored_in_place (jobs : list JobListing) :
  List.filter (fun j => negb (_is_disqualified j)) (List.map scored_in_place jobs) =
  List.map rescore (List.filter (fun j => negb (_is_disqualified j)) jobs).
Proof.
  induction jobs as [|j jobs IH]; [reflexivity|].
  cbn [List.map List.filter].
  assert (Hd : _is_disqualified (scored_in_place j) = _is_disqualified j).
  { unfold score_in_place. destruct (_is_disqualified j) eqn:E; [exact E|].
    unfold score_job. rewrite _is_disqualified_set_score. exact E. }
  rewrite Hd. destruct (_is_disqualified j) eqn:E; cbn [negb List.map].
  - exact IH.
  - rewrite IH. unfold score_in_place. rewrite E. reflexivity.
Qed.

(** X2. Postings are scored in place: after the node has run, [scored_jobs]
    is a rearrangement of the postings of [filtered_jobs] that are not
    disqualified, [filtered_jobs] keeps its length and its identifiers in
    order, and adding the disqualified postings to the scored ones gives the
    size of the input. *)
Theorem scored_jobs_alias_filtered_jobs (state : AgentState) :
  let out := node state in
  Permutation (scored_jobs out)
    (List.filter (fun j => negb (_is_disqualified j)) (filtered_jobs out)) /\
  List.map job_id (filtered_jobs out) = List.map job_id (filtered_jobs state) /\
  (List.length (scored_jobs out) +
   List.length (List.filter _is_disqualified (filtered_jobs state)) =
   List.length (filtered_jobs state))%nat.
Proof.
  cbn zeta. rewrite filtered_jobs_node, filter_map_scored_in_place.
  cbn [relevance_scoring_node scored_jobs]. rewrite scoring_loop_eq.
  split; [apply sort_desc_perm|]. split.
  - rewrite List.map_map. apply List.map_ext. intros j. unfold score_in_place.
    destruct (_is_disqualified j); reflexivity.
  - rewrite (Permutation_length (sort_desc_perm _)), List.length_map.
    induction (filtered_jobs state) as [|j l IH]; [reflexivity|].
    cbn [List.filter List.length]. destruct (_is_disqualified j); cbn [negb List.length]; lia.
Qed.

Lemma rescore_set_score (j : JobListing) (v : Q) :
  rescore (set_relevance_score j v) = rescore j.
Proof. reflexivity. Qed.

Lemma scored_in_place_idempotent (j : JobListing) :
  scored_in_place (scored_in_place j) = scored_in_place j.
Proof.
  unfold score_in_place at 2. destruct (_is_disqualified j) eqn:E.
  - unfold score_in_place. rewrite E. reflexivity.
  - unfold score_in_place. unfold score_job at 1.
    rewrite _is_disqualified_set_score, E. apply rescore_set_score.
Qed.

(** X3. Scoring twice changes nothing: running the node on its own output
    gives the same [filtered_jobs], [scored_jobs] and [selected_jobs]. *)
Theorem scoring_node_idempotent (state : AgentState) :
  filtered_jobs (node (node state)) = filtered_jobs (node state) /\
  scored_jobs (node (node state)) = scored_jobs (node state) /\
  selected_jobs (node (node state)) = selected_jobs (node state).
Proof.
  assert (Hs : scoring_loop cosine_similarity embeddings_model
                 (filtered_jobs (node state)) =
               scoring_loop cosine_similarity embeddings_model (filtered_jobs state)).
  { rewrite !scoring_loop_eq, filtered_jobs_node, filter_map_scored_in_place.
    rewrite List.map_map. apply List.map_ext. intros j. apply rescore_set_score. }
  split.
  - rewrite !filtered_jobs_node, List.map_map. apply List.map_ext.
    intros j. apply scored_in_place_idempotent.
  - cbn [relevance_scoring_node scored_jobs selected_jobs] in *.
    rewrite Hs. split; reflexivity.
Qed.

Lemma scoring_loop_perm (jobs jobs' : list JobListing) :
  Permutation jobs jobs' ->
  Permutation (scoring_loop cosine_similarity embeddings_model jobs)
              (scoring_loop cosine_similarity embeddings_model jobs').
Proof.
  intros H. rewrite !scoring_loop_eq. apply Permutation_map, filter_perm, H.
Qed.

(** X4. The order of the input decides nothing but the order of ties: two
    runs on rearrangements of the same postings score the same postings and
    select the same postings. *)
Theorem input_order_irrelevant (state state' : AgentState) :
  Permutation (filtered_jobs state) (filtered_jobs state') ->
  Permutation (scored_jobs (node state)) (scored_jobs (node state')) /\
  Permutation (selected_jobs (node state)) (selected_jobs (node state')).
Proof.
  intros H. apply scoring_loop_perm in H.
  assert (Hs : Permutation (scored_jobs (node state)) (scored_jobs (node state'))).
  { cbn [relevance_scoring_node scored_jobs].
    rewrite !sort_desc_perm. exact H. }
  split; [exact Hs|].
  cbn [relevance_scoring_node selected_jobs scored_jobs] in *.
  apply filter_perm. exact Hs.
Qed.

End NodeShape.

Lemma input_order_irrelevant_witness :
  Permutation
    (selected_jobs (relevance_scoring_node unit_cosine None
                      (initial_state [acme_job; legacy_job])))
    (selected_jobs (relevance_scoring_node unit_cosine None
                      (initial_state [legacy_job; acme_job]))).
Proof.
  apply (input_order_irrelevant unit_cosine None
           (initial_state [acme_job; legacy_job]) (initial_state [legacy_job; acme_job])).
  cbn [initial_state filtered_jobs]. apply perm_swap.
Defined.

(** ** Range of the score *)

Lemma py_round_2_times_10 (sim : Q) :
  (- (1) <= sim)%Q -> (sim <= 1)%Q ->
  (- (10) <= py_round (sim * 10) 2)%Q /\ (py_round (sim * 10) 2 <= 10)%Q.
Proof.
  intros H1 H2. apply (py_round_bounds _ (-10) 10);
    [change (inject_Z (-10)) with (- (10))%Q | change (inject_Z 10) with 10%Q]; lra.
Qed.

Lemma semantic_bonus_range (cosine_similarity : list Q -> list Q -> option Q)
    (m : option Embeddings) (job : JobListing) :
  cosine_in_range cosine_similarity ->
  (- (10) <= semantic_bonus cosine_similarity m job)%Q /\
  (semantic_bonus cosine_similarity m job <= 10)%Q.
Proof.
  intros Hcos. destruct m as [m|]; cbn [semantic_bonus]; [|split; discriminate].
  unfold _semantic_similarity, semantic_try.
  destruct (embed_query m candidate_profile) as [a|]; cbn; [|split; discriminate].
  destruct (embed_query m (job_text job)) as [b|]; cbn; [|split; discriminate].
  destruct (cosine_similarity a b) as [sim|] eqn:E; cbn; [|split; discriminate].
  destruct (Hcos a b sim E). apply py_round_2_times_10; assumption.
Qed.

(** X5. The score never exceeds 100, whatever the collaborators return.  When
    every similarity is a cosine, the semantic bonus lies in [-10, 10], the
    unrounded score is within one point of the sum of the four components
    (or at the cap), and the score is at least -1. *)
Theorem semantic_blend_moves_one_point
    (cosine_similarity : list Q -> list Q -> option Q)
    (m : option Embeddings) (job : JobListing) :
  (relevance_score (score_job cosine_similarity m job) <= 100)%Q /\
  (cosine_in_range cosine_similarity ->
   (- (10) <= semantic_bonus cosine_similarity m job)%Q /\
   (semantic_bonus cosine_similarity m job <= 10)%Q /\
   (Qmin (base_score job - 1) 100 <= final_score cosine_similarity m job)%Q /\
   (final_score cosine_similarity m job <= Qmin (base_score job + 1) 100)%Q /\
   (- (1) <= relevance_score (score_job cosine_similarity m job))%Q).
Proof.
  assert (Hle : (final_score cosine_similarity m job <= 100)%Q)
    by apply Q.le_min_r.
  split.
  - apply (py_round_bounds _ (Qfloor (final_score cosine_similarity m job)) 100);
      [apply Qfloor_le | exact Hle].
  - intros Hcos.
    destruct (semantic_bonus_range cosine_similarity m job Hcos) as [Hb1 Hb2].
    pose proof (_skill_overlap_score_range job) as [? _].
    pose proof (_experience_match_score_range job) as [? _].
    pose proof (_tech_stack_score_range job) as [? _].
    pose proof (_company_preference_score_range job) as [? _].
    assert (Hbase : (0 <= base_score job)%Q) by (unfold base_score; lra).
    assert (Hlo : (Qmin (base_score job - 1) 100 <=
                   final_score cosine_similarity m job)%Q).
    { unfold final_score. apply Q.min_le_compat_r. lra. }
    assert (Hhi : (final_score cosine_similarity m job <=
                   Qmin (base_score job + 1) 100)%Q).
    { unfold final_score. apply Q.min_le_compat_r. lra. }
    repeat split; try assumption.
    apply (py_round_bounds _ (-1) 100); [|exact Hle].
    change (inject_Z (-1)) with (- (1))%Q.
    eapply Qle_trans; [|exact Hlo]. apply Q.min_glb; [lra | discriminate].
Qed.

Lemma semantic_blend_moves_one_point_witness :
  (- (1) <= relevance_score (score_job half_cosine (Some constant_embeddings) acme_job))%Q.
Proof.
  apply (semantic_blend_moves_one_point half_cosine (Some constant_embeddings) acme_job).
  intros a b sim H. injection H as <-. split; discriminate.
Defined.

(** ** The blacklist against the other keyword scans *)

Lemma contains_after_space (kw b : string) :
  overlaps kw (String " " b) = false ->
  String.prefix kw (String " " b) = false ->
  forall a, contains kw (a ++ " " ++ b) = contains kw a || contains kw b.
Proof.
  intros Ho Hp a. change (" " ++ b) with (String " " b).
  rewrite (contains_app _ _ _ Ho). cbn [contains]. rewrite Hp. reflexivity.
Qed.

(** A blacklist keyword found in one field is found by the filter. *)
Lemma field_hit_disqualifies (kw : string) (job : JobListing) :
  In kw BLACKLIST_KEYWORDS ->
  contains (lower kw) (lower (title job)) = true \/
  contains (lower kw) (lower (description job)) = true \/
  contains (lower kw) (lower (experience_required job)) = true ->
  _is_disqualified job = true.
Proof.
  intros Hin H. apply _is_disqualified_iff. exists kw. split; [exact Hin|].
  apply blacklist_text_fields. rewrite <- !contains_iff. exact H.
Qed.

(** X6. A posting that passes the blacklist mentions neither "senior" nor
    "lead" in its experience text or description, so the lowest experience
    tier can only be reached through "3+", "4+" or "5+": a scored posting
    with experience component 0 mentions one of these. *)
Theorem scored_zero_experience_names_years (job : JobListing) :
  _is_disqualified job = false ->
  ~ Mentions ["senior"; "lead"] (experience_text job) /\
  (_experience_match_score job = 0%Q ->
   Mentions ["3+"; "4+"; "5+"] (experience_text job)).
Proof.
  intros Hdq.
  assert (Hno : forall kw, In kw ["senior"; "lead"] ->
                           contains kw (experience_text job) = false).
  { intros kw Hkw. unfold experience_text. rewrite !lower_app.
    change (lower " ") with " ".
    assert (Hsplit : contains kw (lower (experience_required job) ++ " " ++
                                  lower (description job)) =
                     contains kw (lower (experience_required job)) ||
                     contains kw (lower (description job))).
    { destruct Hkw as [<- | [<- | []]]; apply contains_after_space; reflexivity. }
    rewrite Hsplit. apply orb_false_iff.
    split; apply not_true_is_false; intros Hc;
      (assert (Hd : _is_disqualified job = true);
       [apply (field_hit_disqualifies kw);
        [destruct Hkw as [<- | [<- | []]]; simpl; tauto
        |destruct Hkw as [<- | [<- | []]]; auto]
       |congruence]). }
  assert (Hnot : ~ Mentions ["senior"; "lead"] (experience_text job)).
  { intros (kw & Hkw & Hs). apply contains_iff in Hs. rewrite (Hno kw Hkw) in Hs.
    discriminate. }
  split; [exact Hnot|]. intros Hz.
  unfold _experience_match_score in Hz. cbv zeta in Hz.
  rewrite experience_combined in Hz.
  repeat match type of Hz with
         | (if ?b then _ else _) = _ => destruct b eqn:?; try discriminate
         end.
  match goal with H : any_in ["3+"; "4+"; "5+"; "senior"; "lead"] _ = true |- _ =>
    apply Mentions_iff in H; destruct H as (kw & Hkw & Hs) end.
  cbn [In] in Hkw. destruct Hkw as [<- | [<- | [<- | Hkw]]];
    try (exists "3+"; split; [simpl; tauto | exact Hs]);
    try (exists "4+"; split; [simpl; tauto | exact Hs]);
    try (exists "5+"; split; [simpl; tauto | exact Hs]).
  exfalso. apply Hnot. exists kw. split; [|exact Hs].
  destruct Hkw as [<- | [<- | []]]; simpl; tauto.
Qed.

Lemma scored_zero_experience_names_years_witness :
  Mentions ["3+"; "4+"; "5+"] (experience_text cobol_job).
Proof.
  apply (scored_zero_experience_names_years cobol_job); reflexivity.
Defined.

Lemma _is_blacklisted_iff (text : string) :
  _is_blacklisted text = true <->
  exists kw, In kw BLACKLIST_KEYWORDS /\ contains (lower kw) (lower text) = true.
Proof. unfold _is_blacklisted. apply existsb_exists. Qed.

(** X7. The scoring filter subsumes the scrapers' title filter: a posting
    whose title, description or experience text the discovery blacklist
    rejects is disqualified by the scoring node. *)
Theorem blacklisted_field_is_disqualified (job : JobListing) :
  _is_blacklisted (title job) = true \/
  _is_blacklisted (description job) = true \/
  _is_blacklisted (experience_required job) = true ->
  _is_disqualified job = true.
Proof.
  intros H.
  assert (Hkw : exists kw, In kw BLACKLIST_KEYWORDS /\
            (contains (lower kw) (lower (title job)) = true \/
             contains (lower kw) (lower (description job)) = true \/
             contains (lower kw) (lower (experience_required job)) = true)).
  { destruct H as [H | [H | H]]; apply _is_blacklisted_iff in H as (kw & Hin & Hc);
      exists kw; auto. }
  destruct Hkw as (kw & Hin & Hc). exact (field_hit_disqualifies kw job Hin Hc).
Qed.

Lemma blacklisted_field_is_disqualified_witness :
  _is_disqualified senior_job = true.
Proof.
  apply (blacklisted_field_is_disqualified senior_job). left. reflexivity.
Defined.

(** ** The tech-stack and skill components, further *)

Lemma Substring_refl (s : string) : Substring s s.
Proof. exists "", "". rewrite append_nil_r. reflexivity. Qed.

Lemma Substring_concat (sep s : string) (l : list string) :
  In s l -> Substring s (String.concat sep l).
Proof.
  induction l as [|x l IH]; [intros []|].
  intros Hin. cbn [String.concat]. destruct l as [|y l].
  - destruct Hin as [-> | []]. apply Substring_refl.
  - destruct Hin as [-> | Hin].
    + apply Substring_app_l, Substring_refl.
    + apply Substring_app_r, Substring_app_r, IH, Hin.
Qed.

Lemma count_if_mono {A} (p q : A -> bool) (l : list A) :
  (forall x, In x l -> p x = true -> q x = true) ->
  (count_if p l <= count_if q l)%Z.
Proof.
  unfold count_if. intros H. apply inj_le.
  induction l as [|a l IH]; [reflexivity|]. cbn [List.filter].
  assert (IH' : (List.length (List.filter p l) <= List.length (List.filter q l))%nat)
    by (apply IH; intros x Hx; apply H; right; exact Hx).
  specialize (H a (or_introl eq_refl)).
  destruct (p a), (q a); cbn [List.length];
    first [lia | specialize (H eq_refl); discriminate].
Qed.

Lemma term_listed_counted (job : JobListing) (tech : string) :
  term_listed job tech = true ->
  contains tech
    (lower (str_or (description job) "") ++
     String.concat " " (List.map lower (required_skills job ++ preferred_skills job)%list))
  = true.
Proof.
  unfold term_listed. rewrite str_or_empty, orb_true_iff, existsb_exists.
  rewrite !contains_iff. intros [H | (skill & Hin & H)].
  - apply Substring_app_l. exact H.
  - apply Substring_app_r. apply contains_iff in H.
    destruct H as (pre & suf & E).
    assert (Hs : Substring (lower skill)
                   (String.concat " "
                      (List.map lower (required_skills job ++ preferred_skills job)%list)))
      by (apply Substring_concat, in_map, Hin).
    destruct Hs as (pre' & suf' & ->). rewrite E.
    exists (pre' ++ pre), (suf ++ suf'). rewrite !append_assoc. reflexivity.
Qed.

(** X8. A priority term counts wherever it is listed: the tech-stack
    component is at least 3 points for each priority term that occurs in
    the description or inside a required or preferred skill, up to the cap
    of 25. *)
Theorem tech_stack_counts_listed_terms (job : JobListing) :
  (inject_Z (Z.min (3 * count_if (term_listed job) priority_tech) 25) <=
   _tech_stack_score job)%Q /\
  (forall tech, In tech priority_tech -> term_listed job tech = true ->
                (3 <= _tech_stack_score job)%Q).
Proof.
  assert (Hc : (count_if (term_listed job) priority_tech <=
                count_if (fun tech => contains tech
                  (lower (str_or (description job) "") ++
                   String.concat " "
                     (List.map lower (required_skills job ++ preferred_skills job)%list)))
                  priority_tech)%Z).
  { apply count_if_mono. intros t _ Ht. apply term_listed_counted, Ht. }
  split.
  - unfold _tech_stack_score. cbv zeta. rewrite <- Zle_Qle. lia.
  - intros tech Hin Ht.
    assert (H1 : (1 <= count_if (term_listed job) priority_tech)%Z).
    { unfold count_if.
      assert (Hf : In tech (List.filter (term_listed job) priority_tech))
        by (apply filter_In; auto).
      destruct (List.filter (term_listed job) priority_tech); [destruct Hf|].
      cbn [List.length]. lia. }
    unfold _tech_stack_score. cbv zeta. change 3%Q with (inject_Z 3).
    rewrite <- Zle_Qle. lia.
Qed.

Lemma tech_stack_counts_listed_terms_witness : (3 <= _tech_stack_score acme_job)%Q.
Proof.
  apply (proj2 (tech_stack_counts_listed_terms acme_job) "pytorch");
    [simpl; tauto | reflexivity].
Defined.

Lemma count_if_all {A} (p : A -> bool) (l : list A) :
  (forall x, In x l -> p x = true) -> count_if p l = Z.of_nat (List.length l).
Proof.
  intros H. unfold count_if. f_equal. f_equal.
  apply forallb_filter_id, forallb_forall, H.
Qed.

Lemma count_if_none {A} (p : A -> bool) (l : list A) :
  (forall x, In x l -> p x = false) -> count_if p l = 0%Z.
Proof.
  intros H. unfold count_if.
  rewrite (List.filter_ext_in p (fun _ => false) l H), List.filter_false.
  reflexivity.
Qed.

(** X9. Full and no credit: with a non-empty required-skill list, the
    skill-overlap component is 40 when every required skill is one of the
    candidate's up to case, and 0 when none is. *)
Theorem skill_overlap_extremes (job : JobListing) :
  required_skills job <> [] ->
  ((forall skill, In skill (required_skills job) ->
      exists c, In c ALL_SKILLS /\ lower c = lower skill) ->
   (_skill_overlap_score job == 40)%Q) /\
  ((forall skill, In skill (required_skills job) ->
      ~ exists c, In c ALL_SKILLS /\ lower c = lower skill) ->
   (_skill_overlap_score job == 0)%Q).
Proof.
  intros Hne. rewrite (_skill_overlap_score_eq job Hne).
  assert (Hn : (0 < Z.of_nat (List.length (required_skills job)))%Z).
  { destruct (required_skills job); [congruence | cbn; lia]. }
  assert (Hnq : ~ (inject_Z (Z.of_nat (List.length (required_skills job))) == 0)%Q).
  { change 0%Q with (inject_Z 0). rewrite inject_Z_injective. lia. }
  split; intros H.
  - assert (E : (present_fraction job * 40 == 40)%Q).
    { unfold present_fraction. rewrite count_if_all.
      - field. exact Hnq.
      - intros s Hs. apply skill_present_iff, H, Hs. }
    rewrite (py_round_comp _ _ 2 E). reflexivity.
  - assert (E : (present_fraction job * 40 == 0)%Q).
    { unfold present_fraction. rewrite count_if_none.
      - field. exact Hnq.
      - intros s Hs. apply not_true_is_false. intros Hp.
        apply (H s Hs), skill_present_iff, Hp. }
    rewrite (py_round_comp _ _ 2 E). reflexivity.
Qed.

Lemma skill_overlap_extremes_witness : (_skill_overlap_score cobol_job == 0)%Q.
Proof.
  apply (skill_overlap_extremes cobol_job); [discriminate|].
  intros skill [<- | []] (c & Hc & E).
  assert (Hp : skill_present "COBOL" = true) by (apply skill_present_iff; eauto).
  vm_compute in Hp. discriminate.
Defined.

(** * Further properties of discovery *)

(** ** Retrying requests *)

Section SafeGet.

Variable requests_get : string -> nat -> Outcome.

Lemma safe_get_loop_spec (url : string) (remaining attempt : nat) :
  (forall i, (i < attempt)%nat -> attempt_failed (requests_get url i)) ->
  match safe_get_loop requests_get url attempt remaining with
  | (Some resp, made) =>
      status_code resp = 200%Z /\ (made <= attempt + remaining)%nat /\
      requests_get url (made - 1) = Responded resp /\ (0 < made)%nat /\
      forall i, (i < made - 1)%nat -> attempt_failed (requests_get url i)
  | (None, made) =>
      made = (attempt + remaining)%nat /\
      forall i, (i < made)%nat -> attempt_failed (requests_get url i)
  end.
Proof.
  revert attempt. induction remaining as [|remaining IH]; intros attempt Hprev.
  - cbn [safe_get_loop]. split; [lia|]. intros i Hi. apply Hprev. lia.
  - cbn [safe_get_loop].
    assert (Hnext : attempt_failed (requests_get url attempt) ->
                    forall i, (i < S attempt)%nat -> attempt_failed (requests_get url i)).
    { intros Hf i Hi. destruct (Nat.eq_dec i attempt) as [-> | Hne];
        [exact Hf | apply Hprev; lia]. }
    destruct (requests_get url attempt) as [|resp] eqn:E.
    + specialize (IH (S attempt) (Hnext I)).
      destruct (safe_get_loop requests_get url (S attempt) remaining) as [[r|] made];
        [destruct IH as (? & ? & ? & ? & ?); repeat split; auto; lia
        |destruct IH as (? & ?); split; auto; lia].
    + destruct (status_code resp =? 200)%Z eqn:Es.
      * apply Z.eqb_eq in Es. replace (S attempt - 1)%nat with attempt by lia.
        repeat split; auto; lia.
      * apply Z.eqb_neq in Es. specialize (IH (S attempt) (Hnext Es)).
        destruct (safe_get_loop requests_get url (S attempt) remaining) as [[r|] made];
          [destruct IH as (? & ? & ? & ? & ?); repeat split; auto; lia
          |destruct IH as (? & ?); split; auto; lia].
Qed.

(** X10. [_safe_get] returns the first response with status 200 among the
    first [retries] requests, having made no request after it; it returns
    nothing exactly when each of the [retries] requests raised or answered
    with another status. *)
Theorem safe_get_first_success (url : string) (retries : nat) :
  (forall resp, _safe_get requests_get url retries = Some resp ->
     status_code resp = 200%Z /\
     exists k, (k < retries)%nat /\ requests_get url k = Responded resp /\
               snd (safe_get_loop requests_get url 0 retries) = S k /\
               forall i, (i < k)%nat -> attempt_failed (requests_get url i)) /\
  (_safe_get requests_get url retries = None <->
   forall i, (i < retries)%nat -> attempt_failed (requests_get url i)).
Proof.
  unfold _safe_get.
  pose proof (safe_get_loop_spec url retries 0) as H.
  specialize (H ltac:(intros i Hi; lia)).
  destruct (safe_get_loop requests_get url 0 retries) as [[r|] made]; cbn [fst snd].
  - destruct H as (Hs & Hm & Hk & Hpos & Hf). split.
    + intros resp [= <-]. split; [exact Hs|].
      exists (made - 1)%nat. repeat split; auto; lia.
    + split; [discriminate|]. intros Hall.
      specialize (Hall (made - 1)%nat ltac:(lia)). rewrite Hk in Hall.
      cbn in Hall. contradiction.
  - destruct H as (-> & Hf). split; [discriminate|].
    split; [intros _; exact Hf | reflexivity].
Qed.

End SafeGet.

Lemma safe_get_first_success_witness :
  status_code {| status_code := 200; text := "<html>" |} = 200%Z.
Proof.
  apply (proj1 (safe_get_first_success flaky_site "https://example.com" 3)
           {| status_code := 200; text := "<html>" |}).
  reflexivity.
Defined.

(** ** Posting dates *)

Section WithinDays.

Variable age_in_days : string -> string -> option Z.

Lemma absolute_within_mono (date_str : string) (days days' : Z) (formats : list string) :
  (days <= days')%Z ->
  default true (absolute_within age_in_days date_str days formats) = true ->
  default true (absolute_within age_in_days date_str days' formats) = true.
Proof.
  intros Hle. induction formats as [|fmt formats IH]; cbn [absolute_within]; [auto|].
  destruct (age_in_days fmt date_str) as [age|]; [|exact IH].
  cbn. rewrite !Z.leb_le. lia.
Qed.

(** X11. A wider window keeps every date a narrower one keeps; and a date
    is kept whenever nothing can be read from it: the empty text, and a
    text without "hour", "minute", "second", "day", "week" or "month" that
    parses under none of the three absolute formats the function tries,
    whatever it would parse under. *)
Theorem within_days_monotone_and_lenient (date_str : string) (days days' : Z) :
  ((days <= days')%Z ->
   _within_days age_in_days date_str days = true ->
   _within_days age_in_days date_str days' = true) /\
  _within_days age_in_days "" days = true /\
  (any_in ["hour"; "minute"; "second"; "day"; "week"; "month"] date_str = false ->
   (forall fmt, In fmt ["%Y-%m-%d"; "%d %b %Y"; "%B %d, %Y"] ->
                age_in_days fmt date_str = None) ->
   _within_days age_in_days date_str days = true).
Proof.
  split; [|split; [reflexivity|]].
  - intros Hle. unfold _within_days. destruct date_str as [|c s]; [auto|].
    set (d := String c s).
    destruct (contains "hour" d || contains "minute" d || contains "second" d); [auto|].
    destruct (contains "day" d); [rewrite !Z.leb_le; lia|].
    destruct (contains "week" d); [rewrite !Z.leb_le; lia|].
    destruct (contains "month" d); [auto|].
    apply absolute_within_mono. exact Hle.
  - intros Hkw Hfmt. unfold _within_days. destruct date_str as [|c s]; [reflexivity|].
    set (d := String c s) in *.
    unfold any_in in Hkw. cbn [existsb] in Hkw.
    repeat (apply orb_false_iff in Hkw; destruct Hkw as [?H Hkw]).
    repeat match goal with H : contains _ d = false |- _ => rewrite H; clear H end.
    cbn [orb absolute_within]. rewrite !Hfmt by (cbn [In]; auto). reflexivity.
Qed.

End WithinDays.

Lemma within_days_monotone_and_lenient_witness :
  _within_days literal_clock "3 days ago" 30 = true /\
  literal_clock "recently" "recently" = Some 400%Z /\
  _within_days literal_clock "recently" 7 = true.
Proof.
  split; [|split; [reflexivity|]].
  - apply (proj1 (within_days_monotone_and_lenient literal_clock "3 days ago" 7 30));
      [lia | reflexivity].
  - apply (proj2 (proj2
      (within_days_monotone_and_lenient literal_clock "recently" 7 7)));
      [reflexivity|].
    intros fmt [<- | [<- | [<- | []]]]; reflexivity.
Defined.

(** ** Relative dates *)

Lemma to_uint_nonnil (n : nat) : Nat.to_uint n <> Decimal.Nil.
Proof.
  rewrite <- (DecimalNat.Unsigned.of_to n) at 1.
  rewrite DecimalNat.Unsigned.to_of. unfold Decimal.unorm.
  destruct (Decimal.nzhead (Nat.to_uint n)); discriminate.
Qed.

Lemma all_digits_string_of_uint (d : Decimal.uint) :
  all_digits (NilEmpty.string_of_uint d) = true.
Proof. induction d; cbn [NilEmpty.string_of_uint all_digits]; auto. Qed.

Lemma int_from_string_of_uint (d : Decimal.uint) (acc : nat) :
  int_from (Z.of_nat acc) (NilEmpty.string_of_uint d) =
  Z.of_nat (Nat.of_uint_acc d acc).
Proof.
  revert acc.
  induction d as [|d IH|d IH|d IH|d IH|d IH|d IH|d IH|d IH|d IH|d IH]; intros acc;
    cbn [NilEmpty.string_of_uint int_from Nat.of_uint_acc]; [reflexivity|..];
    rewrite Nat.tail_mul_spec, <- IH; f_equal;
    match goal with |- context [nat_of_ascii ?c] =>
      let v := eval vm_compute in (nat_of_ascii c) in
      change (nat_of_ascii c) with v
    end; lia.
Qed.

(** [int(str(n)) == n] *)
Lemma int_str (n : nat) : int (str n) = Z.of_nat n.
Proof.
  unfold int, str. change 0%Z with (Z.of_nat 0).
  rewrite int_from_string_of_uint. f_equal. apply DecimalNat.Unsigned.of_to.
Qed.

Lemma str_cons (n : nat) : exists c s, str n = String c s /\ isdigit c = true.
Proof.
  unfold str. pose proof (to_uint_nonnil n) as Hn.
  pose proof (all_digits_string_of_uint (Nat.to_uint n)) as Hd.
  destruct (Nat.to_uint n); try congruence;
    cbn [NilEmpty.string_of_uint] in *; eauto.
Qed.

Lemma digits_app_all (ds rest : string) :
  all_digits ds = true -> digits (ds ++ rest) = ds ++ digits rest.
Proof.
  induction ds as [|c ds IH]; [reflexivity|].
  cbn [all_digits]. rewrite andb_true_iff. intros [Hc Hds].
  rewrite !append_cons. cbn [digits]. rewrite Hc, (IH Hds). reflexivity.
Qed.

Lemma contains_all_digits (c : ascii) (kw ds : string) :
  isdigit c = false -> all_digits ds = true -> contains (String c kw) ds = false.
Proof.
  intros Hc. induction ds as [|d ds IH]; [reflexivity|].
  cbn [all_digits contains String.prefix]. rewrite andb_true_iff. intros [Hd Hds].
  rewrite (IH Hds), orb_false_r.
  destruct (ascii_dec c d) as [-> | _]; [congruence | reflexivity].
Qed.

(** A unit word is found in a number followed by [rest] only inside [rest]. *)
Lemma unit_after_number (c : ascii) (kw rest : string) (n : nat) :
  isdigit c = false -> overlaps (String c kw) rest = false ->
  contains (String c kw) (str n ++ rest) = contains (String c kw) rest.
Proof.
  intros Hc Ho. rewrite (contains_app _ _ _ Ho).
  rewrite (contains_all_digits c kw (str n) Hc (all_digits_string_of_uint _)).
  reflexivity.
Qed.

Section RelativeDates.

Variable age_in_days : string -> string -> option Z.

Lemma number_then_words (n : nat) (rest : string) :
  digits rest = "" ->
  str n ++ rest <> "" /\
  any_digit (str n ++ rest) = true /\
  int (digits (str n ++ rest)) = Z.of_nat n.
Proof.
  intros Hr. destruct (str_cons n) as (c & s & E & Hc).
  split; [rewrite E; discriminate|]. split.
  - rewrite E, append_cons. cbn [any_digit]. rewrite Hc. reflexivity.
  - rewrite digits_app_all by apply all_digits_string_of_uint.
    rewrite Hr, append_nil_r. apply int_str.
Qed.

Lemma _within_days_nonempty (d : string) (days : Z) :
  d <> "" ->
  _within_days age_in_days d days =
  if contains "hour" d || contains "minute" d || contains "second" d then true
  else if contains "day" d then
    ((if any_digit d then int (digits d) else 1) <=? days)%Z
  else if contains "week" d then
    ((if any_digit d then int (digits d) else 1) * 7 <=? days)%Z
  else if contains "month" d then false
  else default true
         (absolute_within age_in_days d days ["%Y-%m-%d"; "%d %b %Y"; "%B %d, %Y"]).
Proof. destruct d; [congruence | reflexivity]. Qed.

(** Settle the six keyword tests on a number followed by the given words. *)
Ltac relative_date n rest :=
  destruct (number_then_words n rest eq_refl) as (Hne & Hany & Hint);
  rewrite (_within_days_nonempty _ _ Hne), Hany, Hint;
  rewrite !unit_after_number by reflexivity; reflexivity.

(** X12. The relative dates the scrapers meet are read by their number: "n
    days ago" and "n day ago" are recent exactly when n is at most the
    window, "n weeks ago" and "n week ago" exactly when 7 n is, and "n
    months ago" never.  The number stays below the digit limit of [int]. *)
Theorem relative_dates_read_their_number (n : nat) (days : Z) :
  (Z.of_nat n < 10 ^ 4300)%Z ->
  _within_days age_in_days (str n ++ " days ago") days = (Z.of_nat n <=? days)%Z /\
  _within_days age_in_days (str n ++ " day ago") days = (Z.of_nat n <=? days)%Z /\
  _within_days age_in_days (str n ++ " weeks ago") days = (Z.of_nat n * 7 <=? days)%Z /\
  _within_days age_in_days (str n ++ " week ago") days = (Z.of_nat n * 7 <=? days)%Z /\
  _within_days age_in_days (str n ++ " months ago") days = false.
Proof.
  intros _.
  split; [relative_date n " days ago"|].
  split; [relative_date n " day ago"|].
  split; [relative_date n " weeks ago"|].
  split; [relative_date n " week ago"|].
  relative_date n " months ago".
Qed.

End RelativeDates.

Lemma relative_dates_read_their_number_witness :
  _within_days no_absolute_date (str 2 ++ " weeks ago") JOB_MAX_AGE_DAYS = false.
Proof.
  apply (relative_dates_read_their_number no_absolute_date 2 JOB_MAX_AGE_DAYS).
  vm_compute. reflexivity.
Defined.

(** ** The four scrapers *)

Lemma in_omap {A B} (f : A -> option B) (l : list A) (y : B) :
  In y (omap f l) -> exists x, In x l /\ f x = Some y.
Proof.
  rewrite <- list_elem_of_In, list_elem_of_omap.
  intros (x & Hx & E). exists x. rewrite <- list_elem_of_In. auto.
Qed.

Lemma length_omap_firstn {A B} (f : A -> option B) (n : nat) (l : list A) :
  (List.length (omap f (firstn n l)) <= n)%nat.
Proof.
  transitivity (List.length (firstn n l)); [|apply firstn_le_length].
  induction (firstn n l) as [|a l' IH]; [reflexivity|].
  cbn [omap list_omap]. destruct (f a); cbn [List.length]; lia.
Qed.

Lemma Forall_omap_firstn {A B} (P : B -> Prop) (f : A -> option B) (n : nat)
    (l : list A) :
  (forall x y, f x = Some y -> P y) -> List.Forall P (omap f (firstn n l)).
Proof.
  intros H. apply List.Forall_forall. intros y Hy.
  apply in_omap in Hy as (x & _ & E). eapply H, E.
Qed.

Lemma remote_or_mode (fallback loc : string) :
  In fallback WORK_MODES -> In (remote_or fallback loc) WORK_MODES.
Proof.
  intros H. unfold remote_or. destruct (contains "remote" (lower loc)); [left; reflexivity | exact H].
Qed.

Lemma detect_work_mode_mode (loc : string) : In (detect_work_mode loc) WORK_MODES.
Proof.
  unfold detect_work_mode.
  destruct (contains "remote" (lower loc)); [cbn; auto|].
  destruct (contains "hybrid" (lower loc)); cbn; auto 6.
Qed.

Lemma before_query_clean (s : string) : contains "?" (before_query s) = false.
Proof.
  induction s as [|c s IH]; [reflexivity|]. cbn [before_query].
  destruct (Ascii.eqb_spec c "?") as [-> | Hne]; [reflexivity|].
  cbn [contains String.prefix]. rewrite IH.
  destruct (ascii_dec "?" c) as [<- | _]; [congruence | reflexivity].
Qed.

Section ScrapedCards.

Variable age_in_days : string -> string -> option Z.

Lemma internshala_card_ok (url : string) (x : Found) (c : Card) :
  internshala_card url x = Some c ->
  well_scraped "internshala" c /\ card_experience c = "Fresher / Intern".
Proof.
  intros H. unfold internshala_card in H. cbv zeta in H.
  destruct (_is_blacklisted (text_or (title_el x) "ML/AI Intern")) eqn:Eb;
    destruct (link_el x) as [tag|]; cbn in H;
    try destruct (attrs tag !! "href"); cbn in H; try discriminate;
    injection H as <-; (split; [split; [exact Eb | split; [reflexivity|]] | reflexivity]);
    apply remote_or_mode; cbn; auto 6.
Qed.

Lemma indeed_card_ok (query location : string) (x : Found) (c : Card) :
  indeed_card age_in_days query location x = Some c ->
  well_scraped "indeed" c /\ card_experience c = "Entry Level" /\
  _within_days age_in_days (date_text c) JOB_MAX_AGE_DAYS = true.
Proof.
  intros H. unfold indeed_card in H. cbv zeta in H.
  destruct (_is_blacklisted (text_or (title_el x) query)) eqn:Eb;
    destruct (_within_days age_in_days (text_or (date_el x) "") JOB_MAX_AGE_DAYS) eqn:Ew;
    destruct (link_el x) as [tag|]; cbn in H;
    try destruct (attrs tag !! "href"); cbn in H; try discriminate;
    injection H as <-;
    (split; [split; [exact Eb | split; [reflexivity|]] | split; [reflexivity | exact Ew]]);
    apply remote_or_mode; cbn; auto 6.
Qed.

Lemma wellfound_card_ok (query url : string) (x : Found) (c : Card) :
  wellfound_card query url x = Some c ->
  well_scraped "wellfound" c /\ card_experience c = "Entry Level / Intern".
Proof.
  intros H. unfold wellfound_card in H. cbv zeta in H.
  destruct (_is_blacklisted (text_or (title_el x) query)) eqn:Eb;
    destruct (link_el x) as [tag|]; cbn in H;
    try destruct (attrs tag !! "href"); cbn in H; try discriminate;
    injection H as <-; (split; [split; [exact Eb | split; [reflexivity|]] | reflexivity]);
    apply remote_or_mode; cbn; auto 6.
Qed.

Lemma linkedin_card_ok (query location : string) (x : Found) (c : Card) :
  linkedin_card age_in_days query location x = Some c ->
  well_scraped "linkedin" c /\ card_experience c = "Entry Level / Intern" /\
  link c <> "" /\ contains "?" (link c) = false /\
  _within_days age_in_days (date_text c) JOB_MAX_AGE_DAYS = true.
Proof.
  intros H. unfold linkedin_card in H. cbv zeta in H.
  set (raw := match link_el x with
              | Some tag => attrs tag !! "href"
              | None => Some ""
              end) in H.
  destruct raw as [href|]; cbn [mbind option_bind] in H; [|discriminate].
  set (cleaned := if contains "?" href then before_query href else href) in H.
  assert (Hclean : contains "?" cleaned = false).
  { subst cleaned. destruct (contains "?" href) eqn:E; [apply before_query_clean | exact E]. }
  destruct (_is_blacklisted (text_or (title_el x) query)) eqn:Eb; [discriminate|].
  destruct (_within_days age_in_days (datetime_of (date_el x)) JOB_MAX_AGE_DAYS) eqn:Ew;
    cbn [negb] in H; [|discriminate].
  destruct (String.eqb_spec cleaned "") as [El | El]; [discriminate|].
  injection H as <-.
  cbn [link linkedin_dict title_text card_source card_work_mode card_experience
       date_text].
  repeat split; auto. apply detect_work_mode_mode.
Qed.

Lemma linkedin_fallback_card_ok (query location : string) (x : Found) (c : Card) :
  linkedin_fallback_card query location x = Some c ->
  well_scraped "linkedin" c /\ card_experience c = "Entry Level / Intern" /\
  link c <> "" /\ contains "?" (link c) = false.
Proof.
  intros H. unfold linkedin_fallback_card in H. cbv zeta in H.
  set (raw := match link_el x with
              | Some tag => before_query <$> attrs tag !! "href"
              | None => Some ""
              end) in H.
  assert (Hraw : forall l, raw = Some l -> contains "?" l = false).
  { subst raw. intros l. destruct (link_el x) as [tag|]; [|intros [= <-]; reflexivity].
    destruct (attrs tag !! "href"); cbn; [|discriminate].
    intros [= <-]. apply before_query_clean. }
  destruct raw as [cleaned|]; cbn [mbind option_bind] in H; [|discriminate].
  specialize (Hraw cleaned eq_refl).
  destruct (_is_blacklisted (text_or (title_el x) query)) eqn:Eb; [discriminate|].
  cbn [orb] in H.
  destruct (String.eqb_spec cleaned "") as [El | El]; [discriminate|].
  injection H as <-.
  cbn [link linkedin_dict title_text card_source card_work_mode card_experience].
  repeat split; auto. apply detect_work_mode_mode.
Qed.

End ScrapedCards.

Section Scrapers.

Variable requests_get : string -> nat -> Outcome.
Variable age_in_days : string -> string -> option Z.
Variable internshala_listings indeed_result_cards wellfound_result_cards
         linkedin_base_cards linkedin_result_cards : string -> list Found.

Local Abbreviation internshala := (scrape_internshala_cards requests_get internshala_listings).
Local Abbreviation indeed :=
  (scrape_indeed_cards requests_get age_in_days indeed_result_cards).
Local Abbreviation wellfound := (scrape_wellfound_cards requests_get wellfound_result_cards).
Local Abbreviation linkedin :=
  (scrape_linkedin_cards requests_get age_in_days linkedin_base_cards
     linkedin_result_cards).
Local Abbreviation linkedin_fallback :=
  (_scrape_linkedin_fallback requests_get linkedin_base_cards).

Lemma linkedin_fallback_ok (query location : string) :
  (List.length (linkedin_fallback query location) <= 10)%nat /\
  List.Forall (fun c => well_scraped "linkedin" c /\
                        card_experience c = "Entry Level / Intern" /\
                        link c <> "" /\ contains "?" (link c) = false)
              (linkedin_fallback query location).
Proof.
  unfold _scrape_linkedin_fallback. cbv zeta.
  destruct (_safe_get requests_get _ 3) as [resp|];
    [|split; [cbn; lia | constructor]].
  split; [apply length_omap_firstn|].
  apply Forall_omap_firstn. intros x y. apply linkedin_fallback_card_ok.
Qed.

Lemma internshala_ok (query : string) :
  (List.length (internshala query) <= 10)%nat /\
  List.Forall (fun c => well_scraped "internshala" c /\
                        card_experience c = "Fresher / Intern")
              (internshala query).
Proof.
  unfold scrape_internshala_cards. cbv zeta.
  destruct (_safe_get requests_get _ 3); [|split; [cbn; lia | constructor]].
  split; [apply length_omap_firstn|].
  apply Forall_omap_firstn. intros x y. apply internshala_card_ok.
Qed.

Lemma indeed_ok (query : string) :
  (List.length (indeed query) <= 10)%nat /\
  List.Forall (fun c => well_scraped "indeed" c /\
                        card_experience c = "Entry Level" /\
                        _within_days age_in_days (date_text c) JOB_MAX_AGE_DAYS = true)
              (indeed query).
Proof.
  unfold scrape_indeed_cards. cbv zeta.
  destruct (_safe_get requests_get _ 3); [|split; [cbn; lia | constructor]].
  split; [apply length_omap_firstn|].
  apply Forall_omap_firstn. intros x y. apply indeed_card_ok.
Qed.

Lemma wellfound_ok (query : string) :
  (List.length (wellfound query) <= 8)%nat /\
  List.Forall (fun c => well_scraped "wellfound" c /\
                        card_experience c = "Entry Level / Intern")
              (wellfound query).
Proof.
  unfold scrape_wellfound_cards. cbv zeta.
  destruct (_safe_get requests_get _ 3); [|split; [cbn; lia | constructor]].
  split; [apply length_omap_firstn|].
  apply Forall_omap_firstn. intros x y. apply wellfound_card_ok.
Qed.

Lemma linkedin_ok (query : string) :
  (List.length (linkedin query) <= 10)%nat /\
  List.Forall (fun c => well_scraped "linkedin" c /\
                        card_experience c = "Entry Level / Intern" /\
                        link c <> "" /\ contains "?" (link c) = false)
              (linkedin query).
Proof.
  unfold scrape_linkedin_cards. cbv zeta.
  destruct (requests_get _ 0) as [|resp]; [apply linkedin_fallback_ok|].
  destruct (negb (status_code resp =? 200)%Z); [apply linkedin_fallback_ok|].
  split; [apply length_omap_firstn|].
  apply Forall_omap_firstn. intros x y H.
  destruct (linkedin_card_ok _ _ _ _ _ H) as (? & ? & ? & ? & _). auto.
Qed.

(** X13. Each scraper returns at most its quota of cards (10, or 8 for
    Wellfound); every card it returns has a title that passes the blacklist,
    carries the scraper's own source tag and has one of the three known
    work modes. *)
Theorem scrapers_cap_and_filter (query : string) :
  ((List.length (internshala query) <= 10)%nat /\
   List.Forall (well_scraped "internshala") (internshala query)) /\
  ((List.length (indeed query) <= 10)%nat /\
   List.Forall (well_scraped "indeed") (indeed query)) /\
  ((List.length (wellfound query) <= 8)%nat /\
   List.Forall (well_scraped "wellfound") (wellfound query)) /\
  ((List.length (linkedin query) <= 10)%nat /\
   List.Forall (well_scraped "linkedin") (linkedin query)).
Proof.
  destruct (internshala_ok query) as [L1 F1], (indeed_ok query) as [L2 F2],
    (wellfound_ok query) as [L3 F3], (linkedin_ok query) as [L4 F4].
  repeat split; try assumption;
    (eapply List.Forall_impl; [|eassumption]); intros c Hc; apply Hc.
Qed.

(** X14. Every LinkedIn card, from the API or from the fallback page, has a
    non-empty link without a question mark: tracking parameters are cut
    off and cards without a link are dropped.  Every Indeed card has passed
    the date filter. *)
Theorem linkedin_links_and_indeed_dates (query : string) :
  List.Forall (fun c => link c <> "" /\ contains "?" (link c) = false)
              (linkedin query) /\
  List.Forall (fun c => _within_days age_in_days (date_text c) JOB_MAX_AGE_DAYS = true)
              (indeed query).
Proof.
  destruct (indeed_ok query) as [_ F2], (linkedin_ok query) as [_ F4].
  split; (eapply List.Forall_impl; [|eassumption]); cbn.
  - intros c (_ & _ & ? & ?). auto.
  - intros c (_ & _ & ?). assumption.
Qed.

(** What every card of the four scrapers satisfies. *)
Lemma scraped_card_facts (query : string) (c : Card) :
  In c (internshala query) \/ In c (indeed query) \/
  In c (wellfound query) \/ In c (linkedin query) ->
  _is_blacklisted (title_text c) = false /\
  In (card_source c) ["internshala"; "indeed"; "wellfound"; "linkedin"] /\
  scraped_experience c.
Proof.
  destruct (internshala_ok query) as [_ F1], (indeed_ok query) as [_ F2],
    (wellfound_ok query) as [_ F3], (linkedin_ok query) as [_ F4].
  rewrite List.Forall_forall in F1, F2, F3, F4. unfold scraped_experience.
  intros [H | [H | [H | H]]];
    [destruct (F1 c H) as ((? & -> & _) & ->)
    |destruct (F2 c H) as ((? & -> & _) & -> & _)
    |destruct (F3 c H) as ((? & -> & _) & ->)
    |destruct (F4 c H) as ((? & -> & _) & -> & _)];
    (split; [assumption | split; cbn; auto 6]).
Qed.

End Scrapers.

(** ** The discovery node: caps and hand-over *)

Lemma In_firstn {A} (n : nat) (l : list A) (x : A) : In x (firstn n l) -> In x l.
Proof.
  intros H. rewrite <- (firstn_skipn n l). apply in_or_app. left. exact H.
Qed.

Lemma NoDup_firstn {A} (n : nat) (l : list A) : List.NoDup l -> List.NoDup (firstn n l).
Proof.
  intros H. rewrite <- (firstn_skipn n l) in H.
  apply NoDup_app_remove_r in H. exact H.
Qed.

Lemma first_seen_length (seen : gset string) (l : list Raw.Job) :
  (List.length (first_seen seen l) <= List.length l)%nat.
Proof.
  revert seen. induction l as [|j l IH]; intros seen; cbn [first_seen]; [lia|].
  destruct (decide (Raw.job_id j ∈ seen)); cbn [List.length];
    [specialize (IH seen) | specialize (IH ({[Raw.job_id j]} ∪ seen))]; lia.
Qed.

(** A listing carries the identity of the dictionary it was built from. *)
Lemma to_listing_Some (k : Raw.Job) (j : JobListing) :
  to_listing k = Some j ->
  job_id j = Raw.job_id k /\ title j = Raw.title k /\
  company j = Raw.company k /\ description j = Raw.description k /\
  source j = Raw.source k /\
  Raw.required_skills k = Typed (required_skills j) /\
  Raw.experience_required k = Typed (experience_required j) /\
  relevance_score j = 0%Q.
Proof.
  unfold to_listing.
  destruct (Raw.required_skills k), (Raw.preferred_skills k),
    (Raw.experience_required k), (Raw.joining_date_flexible k);
    cbn; intros H; try discriminate.
  injection H as <-. cbn. auto 10.
Qed.

Lemma validated_ids_in (l : list Raw.Job) (i : string) :
  In i (List.map job_id (omap to_listing l)) -> In i (List.map Raw.job_id l).
Proof.
  intros H. apply in_map_iff in H as (j & <- & Hj).
  apply in_omap in Hj as (k & Hk & E). apply to_listing_Some in E as (-> & _).
  apply in_map. exact Hk.
Qed.

Lemma validated_ids_NoDup (l : list Raw.Job) :
  List.NoDup (List.map Raw.job_id l) ->
  List.NoDup (List.map job_id (omap to_listing l)).
Proof.
  induction l as [|k l IH]; [auto|]. cbn [List.map omap list_omap].
  intros H. apply List.NoDup_cons_iff in H as [Hin H].
  destruct (to_listing k) as [j|] eqn:E; [|apply IH, H].
  cbn [List.map]. apply List.NoDup_cons; [|apply IH, H].
  apply to_listing_Some in E as (-> & _).
  intros Hj. apply Hin, validated_ids_in, Hj.
Qed.

Lemma refused_id_absent (l : list Raw.Job) (k : Raw.Job) :
  List.NoDup (List.map Raw.job_id l) -> In k l -> to_listing k = None ->
  ~ In (Raw.job_id k) (List.map job_id (omap to_listing l)).
Proof.
  induction l as [|a l IH]; [intros _ []|]. cbn [List.map omap list_omap In].
  intros H Hk Hnone. apply List.NoDup_cons_iff in H as [Hin H].
  destruct Hk as [-> | Hk].
  - rewrite Hnone. intros Hj. apply Hin, validated_ids_in, Hj.
  - destruct (to_listing a) as [j|] eqn:E; [|apply IH; assumption].
    cbn [List.map In]. intros [Hj | Hj]; [|exact (IH H Hk Hnone Hj)].
    apply to_listing_Some in E as (E & _). rewrite E in Hj.
    apply Hin. rewrite Hj. apply in_map, Hk.
Qed.

Lemma validated_ids_all (l : list Raw.Job) :
  List.Forall validates l ->
  List.map job_id (omap to_listing l) = List.map Raw.job_id l.
Proof.
  induction 1 as [|k l [j E] _ IH]; [reflexivity|].
  cbn [List.map omap list_omap]. rewrite E. cbn [List.map].
  apply to_listing_Some in E as (-> & _). f_equal. exact IH.
Qed.

Section DiscoveryCaps.

Variable md5_hexdigest : string -> string.
Variable internshala_cards indeed_cards wellfound_cards linkedin_cards :
  string -> list Card.
Variable extract_skills : string -> string -> string -> option Parsed.

Local Abbreviation node :=
  (job_discovery_node md5_hexdigest internshala_cards indeed_cards
     wellfound_cards linkedin_cards extract_skills).
Local Abbreviation found :=
  (discover md5_hexdigest internshala_cards indeed_cards wellfound_cards
     linkedin_cards).

Lemma raw_jobs_NoDup (state : AgentState) :
  List.NoDup (List.map Raw.job_id (raw_jobs (node state))).
Proof.
  rewrite raw_jobs_ids, discover_first_seen. apply first_seen_NoDup.
Qed.

Lemma filtered_jobs_first_40 (state : AgentState) :
  filtered_jobs (node state) =
  omap to_listing (firstn 40 (raw_jobs (node state))).
Proof.
  cbn [job_discovery_node filtered_jobs raw_jobs].
  set (all := snd (found (default SEARCH_QUERIES (search_queries state)))).
  f_equal. rewrite firstn_app, List.length_map.
  destruct (Nat.le_gt_cases 40 (List.length all)) as [Hle | Hgt].
  - rewrite firstn_length_le by exact Hle. replace (40 - 40)%nat with 0%nat by lia.
    cbn [firstn]. rewrite app_nil_r. symmetry. apply firstn_all2.
    rewrite List.length_map, firstn_length_le; [lia | exact Hle].
  - rewrite (skipn_all2 all) by lia. rewrite firstn_nil, app_nil_r.
    symmetry. apply firstn_all2. rewrite List.length_map, List.length_firstn. lia.
Qed.

Lemma first_40_NoDup (state : AgentState) :
  List.NoDup (List.map Raw.job_id (firstn 40 (raw_jobs (node state)))).
Proof. rewrite <- firstn_map. apply NoDup_firstn, raw_jobs_NoDup. Qed.

Lemma filtered_jobs_NoDup (state : AgentState) :
  List.NoDup (List.map job_id (filtered_jobs (node state))).
Proof.
  rewrite filtered_jobs_first_40. apply validated_ids_NoDup, first_40_NoDup.
Qed.

Lemma filtered_jobs_length (state : AgentState) :
  (List.length (filtered_jobs (node state)) <= 40)%nat.
Proof. rewrite filtered_jobs_first_40. apply length_omap_firstn. Qed.

Lemma filtered_jobs_in (state : AgentState) (j : JobListing) :
  In j (filtered_jobs (node state)) ->
  exists k, In k (raw_jobs (node state)) /\ to_listing k = Some j.
Proof.
  rewrite filtered_jobs_first_40. intros H.
  apply in_omap in H as (k & Hk & E). apply In_firstn in Hk. eauto.
Qed.

(** X15. The discovery node hands over at most 40 postings: [filtered_jobs]
    holds, in order, those of the first 40 dictionaries of [raw_jobs] that
    pass the validation of [JobListing], each with score 0.0 and no
    identifier twice.  A dictionary that fails validation, as one with
    [null] in place of a skill list does, is left out; when all of the
    first 40 pass, all are handed over.  Queries after the sixth are never
    searched, and the scoring fields of the state are left alone. *)
Theorem discovery_hands_over_first_40 (state : AgentState) :
  let out := node state in
  let first := firstn 40 (raw_jobs out) in
  filtered_jobs out = omap to_listing first /\
  (List.length (filtered_jobs out) <= 40)%nat /\
  List.NoDup (List.map job_id (filtered_jobs out)) /\
  (forall j, In j (filtered_jobs out) -> relevance_score j = 0%Q) /\
  (forall k, In k first -> to_listing k = None ->
     ~ In (Raw.job_id k) (List.map job_id (filtered_jobs out))) /\
  (List.Forall validates first ->
     List.map job_id (filtered_jobs out) = List.map Raw.job_id first) /\
  (forall queries,
     search_queries state = Some queries ->
     raw_jobs out =
     raw_jobs (node {| search_queries := Some (firstn 6 queries);
                       raw_jobs := raw_jobs state;
                       filtered_jobs := filtered_jobs state;
                       scored_jobs := scored_jobs state;
                       selected_jobs := selected_jobs state |})) /\
  scored_jobs out = scored_jobs state /\
  selected_jobs out = selected_jobs state.
Proof.
  cbn zeta. split; [apply filtered_jobs_first_40|].
  split; [apply filtered_jobs_length|].
  split; [apply filtered_jobs_NoDup|].
  split.
  { intros j Hj. apply filtered_jobs_in in Hj as (k & _ & E).
    apply to_listing_Some in E. apply E. }
  split.
  { intros k Hk Hnone. rewrite filtered_jobs_first_40.
    apply refused_id_absent; [apply first_40_NoDup | exact Hk | exact Hnone]. }
  split.
  { intros Hall. rewrite filtered_jobs_first_40. apply validated_ids_all, Hall. }
  split; [|split; reflexivity].
  intros queries Hq. cbn [job_discovery_node raw_jobs search_queries].
  rewrite Hq. cbn [default]. unfold discover, id.
  rewrite (firstn_firstn queries 6 6). reflexivity.
Qed.

End DiscoveryCaps.

Lemma discovery_hands_over_first_40_witness :
  List.map Raw.title (raw_jobs sample_refused) = ["RAG Intern"; "LLM Intern"] /\
  List.map title (filtered_jobs sample_refused) = ["LLM Intern"] /\
  List.NoDup (List.map job_id (filtered_jobs sample_refused)).
Proof.
  split; [vm_compute; reflexivity|]. split; [vm_compute; reflexivity|].
  exact (proj1 (proj2 (proj2
    (discovery_hands_over_first_40 sample_digest no_cards no_cards sample_wellfound
       no_cards null_reply
       {| search_queries := Some ["RAG Intern"]; raw_jobs := [];
          filtered_jobs := []; scored_jobs := []; selected_jobs := [] |})))).
Defined.

(** ** Discovery on the four scrapers, and on into scoring *)

Lemma length_concat_le {A} (n : nat) (ls : list (list A)) :
  List.Forall (fun l => (List.length l <= n)%nat) ls ->
  (List.length (List.concat ls) <= List.length ls * n)%nat.
Proof.
  induction 1 as [|l ls Hl _ IH]; [cbn; lia|].
  cbn [List.concat List.length]. rewrite List.length_app. lia.
Qed.

Lemma NoDup_map_filter {A B} (f : A -> B) (p : A -> bool) (l : list A) :
  List.NoDup (List.map f l) -> List.NoDup (List.map f (List.filter p l)).
Proof.
  induction l as [|a l IH]; [auto|]. cbn [List.map List.filter].
  intros H. apply List.NoDup_cons_iff in H as [Hin H].
  destruct (p a); [|apply IH, H]. cbn [List.map].
  apply List.NoDup_cons; [|apply IH, H].
  intros Hc. apply Hin. apply in_map_iff in Hc as (x & E & Hx).
  apply in_map_iff. exists x. split; [exact E|].
  apply filter_In in Hx. tauto.
Qed.

Section GraphFacts.

Variable md5_hexdigest : string -> string.
Variable requests_get : string -> nat -> Outcome.
Variable age_in_days : string -> string -> option Z.
Variable internshala_listings indeed_result_cards wellfound_result_cards
         linkedin_base_cards linkedin_result_cards : string -> list Found.
Variable extract_skills : string -> string -> string -> option Parsed.
Variable cosine_similarity : list Q -> list Q -> option Q.
Variable embeddings_model : option Embeddings.

Local Abbreviation internshala := (scrape_internshala_cards requests_get internshala_listings).
Local Abbreviation indeed :=
  (scrape_indeed_cards requests_get age_in_days indeed_result_cards).
Local Abbreviation wellfound := (scrape_wellfound_cards requests_get wellfound_result_cards).
Local Abbreviation linkedin :=
  (scrape_linkedin_cards requests_get age_in_days linkedin_base_cards
     linkedin_result_cards).
Local Abbreviation discovery :=
  (job_discovery_scraping md5_hexdigest requests_get age_in_days
     internshala_listings indeed_result_cards wellfound_result_cards
     linkedin_base_cards linkedin_result_cards extract_skills).
Local Abbreviation graph :=
  (discover_then_score md5_hexdigest requests_get age_in_days
     internshala_listings indeed_result_cards wellfound_result_cards
     linkedin_base_cards linkedin_result_cards extract_skills
     cosine_similarity embeddings_model).
Local Abbreviation stream :=
  (discovered md5_hexdigest internshala indeed wellfound linkedin).
Local Abbreviation per_query :=
  (sources md5_hexdigest internshala indeed wellfound linkedin).

Lemma per_query_length (query : string) :
  (List.length (per_query query) <= 38)%nat.
Proof.
  destruct (internshala_ok requests_get internshala_listings query) as [H1 _].
  destruct (indeed_ok requests_get age_in_days indeed_result_cards query) as [H2 _].
  destruct (wellfound_ok requests_get wellfound_result_cards query) as [H3 _].
  destruct (linkedin_ok requests_get age_in_days linkedin_base_cards
              linkedin_result_cards query) as [H4 _].
  unfold sources, scrape_internshala, scrape_indeed, scrape_wellfound, scrape_linkedin.
  destruct (source_enabled "internshala"), (source_enabled "indeed"),
    (source_enabled "wellfound"), (source_enabled "linkedin");
    rewrite ?List.length_app, ?List.length_map; cbn [List.length]; lia.
Qed.

Lemma stream_length (queries : list string) :
  (List.length (stream queries) <= 228)%nat.
Proof.
  unfold discovered.
  pose proof (length_concat_le 38 (List.map per_query (firstn 6 queries))) as H.
  rewrite List.length_map in H.
  pose proof (firstn_le_length 6 queries).
  assert (Hall : List.Forall (fun l : list Raw.Job => (List.length l <= 38)%nat)
                   (List.map per_query (firstn 6 queries))).
  { apply List.Forall_forall. intros l Hl. apply in_map_iff in Hl as (q & <- & _).
    apply per_query_length. }
  specialize (H Hall). lia.
Qed.

Lemma stream_scraped (queries : list string) (j : Raw.Job) :
  In j (stream queries) ->
  exists query c, j = job_of_card md5_hexdigest c /\
    (In c (internshala query) \/ In c (indeed query) \/
     In c (wellfound query) \/ In c (linkedin query)).
Proof.
  unfold discovered. rewrite in_concat. intros (l & Hl & Hj).
  apply in_map_iff in Hl as (q & <- & _). exists q.
  unfold sources, scrape_internshala, scrape_indeed, scrape_wellfound,
    scrape_linkedin in Hj.
  rewrite !in_app_iff in Hj.
  destruct Hj as [Hj | [Hj | [Hj | Hj]]];
    match type of Hj with
    | In _ (if ?b then _ else _) => destruct b; [|destruct Hj]
    end;
    apply in_map_iff in Hj as (c & <- & Hc); exists c; auto 6.
Qed.

Lemma discovery_raw_jobs (state : AgentState) (k : Raw.Job) :
  In k (raw_jobs (discovery state)) ->
  exists k0, In k0 (stream (default SEARCH_QUERIES (search_queries state))) /\
             (k = k0 \/ k = enrich_job_description extract_skills k0).
Proof.
  unfold job_discovery_scraping. intros H.
  apply raw_jobs_in in H as (k0 & H0 & E).
  rewrite discover_first_seen in H0. apply first_seen_in in H0 as [H0 _]. eauto.
Qed.

(** X16. A run of the discovery node on the four scrapers collects at most
    228 dictionaries (six queries, 38 cards a query); each one has a title
    that passes the blacklist, the source tag of one of the four sites, and
    the identifier of its own title and company. *)
Theorem scraped_run_bounded (state : AgentState) :
  (List.length (raw_jobs (discovery state)) <= 228)%nat /\
  (forall k, In k (raw_jobs (discovery state)) ->
     _is_blacklisted (Raw.title k) = false /\
     In (Raw.source k) ["internshala"; "indeed"; "wellfound"; "linkedin"] /\
     has_derived_id md5_hexdigest k).
Proof.
  split.
  - unfold job_discovery_scraping.
    rewrite <- (List.length_map Raw.job_id), raw_jobs_ids, List.length_map,
      discover_first_seen.
    etransitivity; [apply first_seen_length | apply stream_length].
  - intros k Hk. apply discovery_raw_jobs in Hk as (k0 & H0 & E).
    apply stream_scraped in H0 as (q & c & -> & Hc).
    destruct (scraped_card_facts requests_get age_in_days internshala_listings
                indeed_result_cards wellfound_result_cards linkedin_base_cards
                linkedin_result_cards q c Hc) as (Hb & Hs & _).
    assert (Hfacts : forall k', k' = job_of_card md5_hexdigest c ->
              _is_blacklisted (Raw.title k') = false /\
              In (Raw.source k') ["internshala"; "indeed"; "wellfound"; "linkedin"] /\
              has_derived_id md5_hexdigest k').
    { intros k' ->. repeat split; assumption. }
    destruct E as [-> | ->]; [apply Hfacts; reflexivity|].
    specialize (Hfacts _ eq_refl).
    unfold has_derived_id, enrich_job_description in *.
    destruct (len _ <? 50)%nat; [exact Hfacts|].
    destruct (extract_skills _ _ _); exact Hfacts.
Qed.

Lemma unenriched_components (query : string) (c : Card) :
  In c (internshala query) \/ In c (indeed query) \/
  In c (wellfound query) \/ In c (linkedin query) ->
  exists j, to_listing (job_of_card md5_hexdigest c) = Some j /\
  _skill_overlap_score j = 20%Q /\ _experience_match_score j = 25%Q /\
  (45 <= base_score j)%Q.
Proof.
  intros Hc. eexists. split; [reflexivity|].
  match goal with |- _skill_overlap_score ?x = _ /\ _ => set (j := x) end.
  destruct (scraped_card_facts requests_get age_in_days internshala_listings
              indeed_result_cards wellfound_result_cards linkedin_base_cards
              linkedin_result_cards query c Hc) as (_ & _ & He).
  assert (H1 : _skill_overlap_score j = 20%Q) by reflexivity.
  assert (H2 : _experience_match_score j = 25%Q).
  { apply _experience_match_score_entry. unfold experience_text.
    rewrite lower_app. subst j. cbn [experience_required].
    unfold scraped_experience in He. cbn [In] in He.
    destruct He as [<- | [<- | [<- | []]]].
    - exists "fresher". split; [cbn; auto|].
      apply Substring_app_l, contains_iff. reflexivity.
    - exists "entry". split; [cbn; auto 6|].
      apply Substring_app_l, contains_iff. reflexivity.
    - exists "entry". split; [cbn; auto 6|].
      apply Substring_app_l, contains_iff. reflexivity. }
  split; [exact H1|]. split; [exact H2|].
  pose proof (_tech_stack_score_range j) as [? _].
  pose proof (_company_preference_score_range j) as [? _].
  unfold base_score. rewrite H1, H2. lra.
Qed.

(** X17. While the language model is down, every posting the discovery
    node hands over has no required skills and an entry-level experience
    text, so its skill-overlap component is the default 20, its experience
    component the full 25, and the sum of its four components at least 45. *)
Theorem unenriched_postings_start_at_45 (state : AgentState) (j : JobListing) :
  llm_down extract_skills ->
  In j (filtered_jobs (discovery state)) ->
  _skill_overlap_score j = 20%Q /\ _experience_match_score j = 25%Q /\
  (45 <= base_score j)%Q.
Proof.
  intros Hdown Hj. unfold job_discovery_scraping in Hj.
  apply filtered_jobs_in in Hj as (k & Hk & Ej).
  apply discovery_raw_jobs in Hk as (k0 & H0 & E).
  assert (Ek : k = k0).
  { destruct E as [-> | ->]; [reflexivity|]. unfold enrich_job_description.
    rewrite Hdown. destruct (len _ <? 50)%nat; reflexivity. }
  subst k. apply stream_scraped in H0 as (q & c & -> & Hc).
  destruct (unenriched_components q c Hc) as (j' & Ej' & H).
  rewrite Ej in Ej'. injection Ej' as <-. exact H.
Qed.

Lemma ids_of_scoring_loop (jobs : list JobListing) :
  List.map job_id (scoring_loop cosine_similarity embeddings_model jobs) =
  List.map job_id (List.filter (fun j => negb (_is_disqualified j)) jobs).
Proof. rewrite scoring_loop_eq, List.map_map. reflexivity. Qed.

(** X18. The first two nodes in sequence: no identifier occurs twice among
    the scored or the selected postings, at most 40 postings are selected,
    and every selected posting has a score of at least 60, a title that
    passes the blacklist, and the identifier of a dictionary in
    [raw_jobs]. *)
Theorem discover_then_score_selects_distinct (state : AgentState) :
  let final := graph state in
  List.NoDup (List.map job_id (scored_jobs final)) /\
  List.NoDup (List.map job_id (selected_jobs final)) /\
  (List.length (selected_jobs final) <= 40)%nat /\
  (forall j, In j (selected_jobs final) ->
     (MIN_RELEVANCE_SCORE <= relevance_score j)%Q /\
     _is_blacklisted (title j) = false /\
     In (job_id j) (List.map Raw.job_id (raw_jobs final))).
Proof.
  cbn zeta. unfold discover_then_score.
  set (found := discovery state).
  assert (Hids : List.NoDup (List.map job_id (filtered_jobs found)))
    by apply filtered_jobs_NoDup.
  assert (Hlen : (List.length (filtered_jobs found) <= 40)%nat)
    by apply filtered_jobs_length.
  assert (Hscored : List.NoDup
            (List.map job_id
               (scored_jobs (relevance_scoring_node cosine_similarity
                               embeddings_model found)))).
  { cbn [relevance_scoring_node scored_jobs].
    eapply Permutation_NoDup;
      [symmetry; apply Permutation_map, sort_desc_perm|].
    rewrite ids_of_scoring_loop. apply NoDup_map_filter, Hids. }
  split; [exact Hscored|]. split.
  { cbn [relevance_scoring_node selected_jobs scored_jobs] in *.
    apply NoDup_map_filter, Hscored. }
  split.
  { cbn [relevance_scoring_node selected_jobs].
    etransitivity; [apply List.filter_length_le|].
    rewrite (Permutation_length (sort_desc_perm _)), scoring_loop_eq, List.length_map.
    etransitivity; [apply List.filter_length_le | exact Hlen]. }
  intros j Hj.
  assert (Hthr : (MIN_RELEVANCE_SCORE <= relevance_score j)%Q).
  { cbn [relevance_scoring_node selected_jobs] in Hj.
    apply filter_In in Hj as [_ Hj]. apply Qle_bool_iff, Hj. }
  apply selected_in_scored, scored_jobs_in in Hj as (j0 & Hin & Hdq & ->).
  split; [exact Hthr|]. split.
  - cbn [score_job set_relevance_score title].
    apply not_true_is_false. intros Hb.
    apply _is_blacklisted_iff in Hb as (kw & Hkw & Hc).
    rewrite (field_hit_disqualifies kw j0 Hkw (or_introl Hc)) in Hdq. discriminate.
  - cbn [score_job set_relevance_score job_id relevance_scoring_node raw_jobs].
    unfold found, job_discovery_scraping in Hin.
    apply filtered_jobs_in in Hin as (k & Hk & E).
    apply to_listing_Some in E as (-> & _). apply in_map, Hk.
Qed.

End GraphFacts.

Lemma unenriched_postings_start_at_45_witness :
  let j := nth 0 (filtered_jobs sample_scraped_run) acme_job in
  llm_down no_reply /\ In j (filtered_jobs sample_scraped_run) /\
  title j = "ML Intern" /\ (45 <= base_score j)%Q.
Proof.
  cbn zeta.
  assert (Hdown : llm_down no_reply) by (intros t c d; reflexivity).
  assert (Hin : In (nth 0 (filtered_jobs sample_scraped_run) acme_job)
                   (filtered_jobs sample_scraped_run))
    by (vm_compute; left; reflexivity).
  split; [exact Hdown|]. split; [exact Hin|]. split; [reflexivity|].
  exact (proj2 (proj2
    (unenriched_postings_start_at_45 sample_digest flaky_site no_absolute_date
       sample_page no_page no_page no_page no_page no_reply
       {| search_queries := Some ["ML Intern"]; raw_jobs := [];
          filtered_jobs := []; scored_jobs := []; selected_jobs := [] |}
       _ Hdown Hin))).
Defined.

(** ** The entry point *)

Section RunAgent.

Variable md5_hexdigest : string -> string.
Variable extract_skills : string -> string -> string -> option Parsed.

(** X19. [run_agent] searches the first six of its queries and no other:
    two runs whose scrapers show the same cards for those six queries
    give the same state, whatever the scrapers would show for any other
    query.  Without custom queries, and with an empty list of them, the
    six are the first six defaults, so the last four defaults are never
    searched. *)
Theorem run_agent_searches_six_queries
    (custom_queries : option (list string))
    (internshala indeed wellfound linkedin
     internshala' indeed' wellfound' linkedin' : string -> list Card) :
  (forall query, In query (searched custom_queries) ->
     same_cards query internshala internshala' /\
     same_cards query indeed indeed' /\
     same_cards query wellfound wellfound' /\
     same_cards query linkedin linkedin') ->
  job_discovery_node md5_hexdigest internshala indeed wellfound linkedin
    extract_skills (run_initial_state custom_queries) =
  job_discovery_node md5_hexdigest internshala' indeed' wellfound' linkedin'
    extract_skills (run_initial_state custom_queries) /\
  (List.length (searched custom_queries) <= 6)%nat /\
  searched (Some []) = searched None /\
  searched None =
    ["Machine Learning Intern"; "GenAI Intern"; "LLM Engineer fresher";
     "AI Agent Developer entry level"; "Generative AI intern";
     "Deep Learning intern"].
Proof.
  intros Hsame. split; [|split; [apply firstn_le_length | split; reflexivity]].
  unfold job_discovery_node.
  set (queries := default SEARCH_QUERIES (search_queries (run_initial_state custom_queries))).
  assert (E : snd (discover md5_hexdigest internshala indeed wellfound linkedin queries) =
              snd (discover md5_hexdigest internshala' indeed' wellfound' linkedin' queries)).
  { rewrite !discover_first_seen. f_equal. unfold discovered. f_equal.
    apply List.map_ext_in. intros query Hq.
    destruct (Hsame query Hq) as (H1 & H2 & H3 & H4).
    unfold same_cards in *.
    unfold sources, scrape_internshala, scrape_indeed, scrape_wellfound,
      scrape_linkedin.
    rewrite H1, H2, H3, H4. reflexivity. }
  rewrite E. reflexivity.
Qed.

End RunAgent.

Lemma run_agent_searches_six_queries_witness :
  raw_jobs (job_discovery_node sample_digest sample_internshala no_cards no_cards
              sample_linkedin no_reply (run_initial_state None)) =
  raw_jobs (job_discovery_node sample_digest other_internshala no_cards no_cards
              sample_linkedin no_reply (run_initial_state None)) /\
  sample_internshala "MLOps intern" <> other_internshala "MLOps intern".
Proof.
  split; [|discriminate].
  apply (f_equal raw_jobs).
  apply (run_agent_searches_six_queries sample_digest no_reply None).
  intros query Hq. vm_compute in Hq.
  repeat split;
    repeat (destruct Hq as [<- | Hq]; [reflexivity|]); destruct Hq.
Defined.
